(** * Illumio API client: the HTTP transport core ([http.go])

    A shallow embedding of [apicall], [polling] and [pceSanitization], with
    the Go standard library functions they call modelled next to them, and
    the properties of the transport proved over that embedding. *)

From stdpp Require Import base strings gmap list.
From Stdlib Require Import ZArith Lia Ascii String.

Open Scope string_scope.
Open Scope Z_scope.

(** ** Go strings

    A Go [string] is a sequence of bytes: [string] over 8-bit [ascii]. *)

Definition byte (c : ascii) : Z := Z.of_N (N_of_ascii c).

Definition of_byte (z : Z) : ascii := ascii_of_N (Z.to_N z).

(** [len(s)] *)
Definition len (s : string) : nat := String.length s.

(** [s[lo:hi]] for [lo <= hi <= len(s)] (Go panics otherwise; every slice
    below is taken inside a guard that gives the bounds). *)
Definition slice (s : string) (lo hi : nat) : string :=
  substring lo (hi - lo) s.

(** [strings.HasPrefix] *)
Definition strings_HasPrefix (s pre : string) : bool :=
  (len pre <=? len s)%nat && (slice s 0 (len pre) =? pre)%string.

(** [strings.HasSuffix] *)
Definition strings_HasSuffix (s suffix : string) : bool :=
  (len suffix <=? len s)%nat && (slice s (len s - len suffix) (len s) =? suffix)%string.

(** The loop of [strings.Replace] for a non-empty [old]: scan from the left,
    replace each occurrence met while [n] is not used up, and resume after
    it ([skip] counts the bytes of the occurrence still to pass). A negative
    [n] never reaches [0]: no limit. *)
Fixpoint replace_from (old new : string) (n : Z) (skip : nat) (s : string) : string :=
  match s with
  | EmptyString => EmptyString
  | String c s' =>
      match skip with
      | S k => replace_from old new n k s'
      | O =>
          if n =? 0 then s
          else if strings_HasPrefix s old
               then new ++ replace_from old new (n - 1) (len old - 1) s'
               else String c (replace_from old new n 0 s')
      end
  end.

(** [strings.Replace(s, old, new, n)]. With an empty [old] Go inserts [new]
    around every UTF-8 sequence; this package only ever passes the literal
    [https://], and the empty case is left as the identity here. *)
Definition strings_Replace (s old new : string) (n : Z) : string :=
  if (old =? new)%string || (n =? 0) then s
  else match old with
       | EmptyString => s
       | _ => replace_from old new n 0 s
       end.

(** [strings.Contains(s, sub)]: [sub] starts at some position of [s]. *)
Fixpoint strings_Contains (s sub : string) : bool :=
  strings_HasPrefix s sub
  || match s with
     | EmptyString => false
     | String _ s' => strings_Contains s' sub
     end.

(** ** [pceSanitization] *)

Definition pceSanitization (pceFQDN : string) : string :=
  (* Remove trailing slash if included *)
  let pceFQDN :=
    if strings_HasSuffix pceFQDN "/" then slice pceFQDN 0 (len pceFQDN - 1)
    else pceFQDN in
  (* Remove HTTPS if included *)
  let pceFQDN :=
    if strings_HasPrefix pceFQDN "https://"
    then strings_Replace pceFQDN "https://" "" (-1)
    else pceFQDN in
  pceFQDN.

(** the string after the first step of [pceSanitization] *)
Definition trim_slash (s : string) : string :=
  if strings_HasSuffix s "/" then slice s 0 (len s - 1) else s.

(** What the specification asks of the second step: the scheme prefix
    goes, the rest stays. *)
Definition strip_scheme (t : string) : string :=
  if strings_HasPrefix t "https://" then slice t (len "https://") (len t) else t.

(** ** [strconv] *)

Inductive NumErrorKind := ErrSyntax | ErrRange.

(** Go [error] values met in this package. *)
Inductive error :=
| errorString (s : string)                           (* errors.New(s) *)
| NumError (Func Num : string) (Err : NumErrorKind)  (* *strconv.NumError *)
| url_Error (Op URL : string) (Err : string)         (* *url.Error *)
| other_error (msg : string).                        (* transport, read or decode failure *)

Definition digit (d : Z) : ascii := of_byte (48 + d).

(** The digit loop of [strconv.FormatInt] in base 10, on a non-negative
    number: least significant digit first, written right to left, until
    what is left is a single digit. [fuel] bounds the number of digits. *)
Fixpoint format_digits (fuel : nat) (n : Z) (acc : string) : string :=
  match fuel with
  | O => acc
  | S fuel' =>
      if n <? 10 then String (digit n) acc
      else format_digits fuel' (n / 10) (String (digit (n mod 10)) acc)
  end.

(** a number below [2 ^ digits_bound n] has at most that many digits *)
Definition digits_bound (n : Z) : nat := S (Z.to_nat (Z.log2 n)).

(** [strconv.Itoa] *)
Definition strconv_Itoa (i : Z) : string :=
  if i <? 0 then String "-" (format_digits (digits_bound (- i)) (- i) "")
  else format_digits (digits_bound i) i "".

Definition is_digit (c : ascii) : bool := (48 <=? byte c) && (byte c <=? 57).

(** The loop of [strconv.ParseUint(s, 10, 64)]: a byte that is no digit is
    a syntax error, an accumulator past the cutoff or a sum past
    [2^64 - 1] is a range error, whichever is met first. *)
Fixpoint parse_uint (s : string) (n : Z) : NumErrorKind + Z :=
  match s with
  | EmptyString => inr n
  | String c s' =>
      if is_digit c then
        if 1844674407370955162 <=? n then inl ErrRange
        else let n1 := n * 10 + (byte c - 48) in
             if 18446744073709551615 <? n1 then inl ErrRange
             else parse_uint s' n1
      else inl ErrSyntax
  end.

(** [strconv.Atoi] with a 64-bit [int]: an optional sign, then one or more
    decimal digits, the value within [-2^63, 2^63 - 1]. *)
Definition strconv_Atoi (s : string) : error + Z :=
  let '(neg, digits) :=
    match s with
    | String "-" s' => (true, s')
    | String "+" s' => (false, s')
    | _ => (false, s)
    end in
  match digits with
  | EmptyString => inl (NumError "Atoi" s ErrSyntax)
  | _ =>
      match parse_uint digits 0 with
      | inl k => inl (NumError "Atoi" s k)
      | inr un =>
          if negb neg && (9223372036854775808 <=? un) then inl (NumError "Atoi" s ErrRange)
          else if neg && (9223372036854775808 <? un) then inl (NumError "Atoi" s ErrRange)
          else inr (if neg then - un else un)
      end
  end.

(** ** [crypto/tls], [net/url], [net/http]: the types the package touches *)

Module tls.
Record Config := { InsecureSkipVerify : bool }.
End tls.

Module url.
(** A parsed URL; [apicall] reads [Host] only. *)
Record URL := { Scheme : string; Host : string; Path : string }.
End url.

(** [http.Header] is [map[string][]string]. *)
Abbreviation http_Header := (gmap string (list string)).

(** [Header.Get]: the first value under the key, or the empty string. Every
    key this package passes is already in canonical MIME form. *)
Definition Header_Get (h : http_Header) (key : string) : string :=
  match h !! key with
  | Some (v :: _) => v
  | _ => ""
  end.

(** [Header.Set] *)
Definition Header_Set (h : http_Header) (key value : string) : http_Header :=
  <[key := [value]]> h.

Module http.

(** [*http.Request]. [Body] is the buffer handed to [http.NewRequest];
    [BasicAuth] holds the credentials that [SetBasicAuth] encodes into the
    [Authorization] header. *)
Record Request := {
  Method : string;
  URL : string;
  Header : http_Header;
  Body : option string;
  BasicAuth : option (string * string)
}.

Definition SetBasicAuth (r : Request) (username password : string) : Request :=
  {| Method := Method r; URL := URL r; Header := Header r; Body := Body r;
     BasicAuth := Some (username, password) |}.

Definition SetHeader (r : Request) (key value : string) : Request :=
  {| Method := Method r; URL := URL r; Header := Header_Set (Header r) key value;
     Body := Body r; BasicAuth := BasicAuth r |}.

Record Transport := { TLSClientConfig : option tls.Config }.

(** [http.Client]; a nil [Transport] means [http.DefaultTransport]. *)
Record Client := { Transport_ : option Transport }.

(** Does a client built by this package skip certificate verification?
    [http.DefaultTransport] carries no TLS configuration and verifies. *)
Definition skips_verification (c : Client) : bool :=
  match Transport_ c with
  | Some {| TLSClientConfig := Some cfg |} => tls.InsecureSkipVerify cfg
  | _ => false
  end.

End http.

(** [*http.Response]. [Body] is what [ioutil.ReadAll] gets out of the body
    stream: the bytes read and the error that ended the read, if any. *)
Record http_Response := {
  resp_StatusCode : Z;
  resp_Header : http_Header;
  resp_Body : string * option error;
  resp_Request : option http.Request
}.

(** [ioutil.ReadAll] *)
Definition ioutil_ReadAll (body : string * option error) : string * option error := body.

(** ** The package's own types *)

(** APIResponse contains the information from the response of the API *)
Record APIResponse := {
  RespBody : string;
  StatusCode : Z;
  Header : http_Header;
  Request : option http.Request
}.

(** PCE represents an Illumio PCE and the necessary info to authenticate *)
Record PCE := {
  FQDN : string;
  Port : Z;
  Org : Z;
  User : string;
  Key : string;
  DisableTLSChecking : bool
}.

Record hrefStruct := { Href_ : string }.

(** Unexported struct for handling the asyncResults *)
Record asyncResults := {
  Href : string;
  JobType : string;
  Description : string;
  Result : hrefStruct;
  Status : string;
  RequestedAt : string;
  TerminatedAt : string;
  RequestedBy : hrefStruct
}.

(** The zero values of [var response APIResponse] and
    [var asyncResults asyncResults]. *)
Definition zero_APIResponse : APIResponse :=
  {| RespBody := ""; StatusCode := 0; Header := ∅; Request := None |}.

Definition zero_asyncResults : asyncResults :=
  {| Href := ""; JobType := ""; Description := ""; Result := {| Href_ := "" |};
     Status := ""; RequestedAt := ""; TerminatedAt := "";
     RequestedBy := {| Href_ := "" |} |}.

(** ** What lies outside the package

    The server and the parts of the Go library whose tables or grammar are
    not this package's: the calls go through this interface. *)
Class Runtime := {
  (** the state of the network and of the server behind it *)
  World : Type;
  (** [strings.Map(unicode.ToUpper, s)], the path [strings.ToUpper] takes
      for a string with a byte outside ASCII *)
  unicode_ToUpper : string -> string;
  (** [url.Parse]; [inl e] is the result [(nil, e)] *)
  url_Parse : string -> error + url.URL;
  (** one exchange of [client.Do]: the answer and the world after it *)
  http_RoundTrip : http.Client -> http.Request -> World ->
                   (error + http_Response) * World;
  (** [json.Unmarshal(data, &v)]: the value left in [v] and the error *)
  json_Unmarshal : string -> asyncResults -> asyncResults * option error;
  (** what a [time.Sleep] of the given duration leaves of the world *)
  time_passes : Z -> World -> World
}.

(** ** [strings.ToUpper] *)

Fixpoint isASCII (s : string) : bool :=
  match s with
  | EmptyString => true
  | String c s' => (byte c <? 128) && isASCII s'
  end.

Definition upper_byte (c : ascii) : ascii :=
  if (97 <=? byte c) && (byte c <=? 122) then of_byte (byte c - 32) else c.

Fixpoint map_bytes (f : ascii -> ascii) (s : string) : string :=
  match s with
  | EmptyString => EmptyString
  | String c s' => String (f c) (map_bytes f s')
  end.

Definition strings_ToUpper `{Runtime} (s : string) : string :=
  if isASCII s then map_bytes upper_byte s else unicode_ToUpper s.

(** ** [http.NewRequest] *)

(** [httpguts.IsTokenRune] on a byte *)
Definition isToken (c : ascii) : bool :=
  let b := byte c in
  ((48 <=? b) && (b <=? 57)) || ((65 <=? b) && (b <=? 90)) || ((97 <=? b) && (b <=? 122))
  || existsb (Z.eqb b) [33; 35; 36; 37; 38; 39; 42; 43; 45; 46; 94; 95; 96; 124; 126].

Fixpoint all_bytes (p : ascii -> bool) (s : string) : bool :=
  match s with
  | EmptyString => true
  | String c s' => p c && all_bytes p s'
  end.

Definition validMethod (method : string) : bool :=
  (0 <? len method)%nat && all_bytes isToken method.

Definition http_NewRequest `{Runtime} (method url : string) (body : option string)
  : error + http.Request :=
  let method := if (method =? "")%string then "GET" else method in
  if negb (validMethod method)
  then inl (errorString ("net/http: invalid method " ++ method))
  else match url_Parse url with
       | inl e => inl e
       | inr _ =>
           inr {| http.Method := method; http.URL := url; http.Header := ∅;
                  http.Body := body; http.BasicAuth := None |}
       end.

(** ** Effects

    A call acts on the world through [client.Do] and [time.Sleep] only; both
    are logged, in order, in the trace. A computation ends with a value,
    with a Go error on its way to the caller, with a run-time panic, or
    without an answer when the loop bound given to the model is used up. *)

Inductive event :=
| Do (client : http.Client) (req : http.Request) (answer : error + http_Response)
| Sleep (d : Z).

Record state `{Runtime} := { world : World; trace : list event }.

Inductive res (A : Type) :=
| Val (a : A)
| Err (e : error)
| Crash
| Spin.

Arguments Val {A} a.
Arguments Err {A} e.
Arguments Crash {A}.
Arguments Spin {A}.

Definition M `{Runtime} (A : Type) : Type := state -> res A * state.

Definition ret `{Runtime} {A} (a : A) : M A := fun st => (Val a, st).

Definition bind `{Runtime} {A B} (m : M A) (k : A -> M B) : M B :=
  fun st =>
    match m st with
    | (Val a, st') => k a st'
    | (Err e, st') => (Err e, st')
    | (Crash, st') => (Crash, st')
    | (Spin, st') => (Spin, st')
    end.

Notation "x <- m ;; k" := (bind m (fun x => k))
  (at level 62, m at next level, right associativity).

Notation "m ;;; k" := (bind m (fun _ => k))
  (at level 62, right associativity).

(** [if err != nil { return response, err }] after a call of the library *)
Definition try `{Runtime} {A} (r : error + A) : M A :=
  fun st => match r with inl e => (Err e, st) | inr a => (Val a, st) end.

(** the same for [ioutil.ReadAll], which hands back [(data, err)] *)
Definition try_read `{Runtime} (r : string * option error) : M string :=
  fun st => match snd r with Some e => (Err e, st) | None => (Val (fst r), st) end.

(** a field read through a pointer: nil panics *)
Definition deref `{Runtime} {A} (p : error + A) : M A :=
  fun st => match p with inl _ => (Crash, st) | inr a => (Val a, st) end.

Definition spin `{Runtime} {A} : M A := fun st => (Spin, st).

(** [client.Do(req)] *)
Definition client_Do `{Runtime} (client : http.Client) (req : http.Request) : M http_Response :=
  fun st =>
    let (answer, w) := http_RoundTrip client req (world st) in
    let st' := {| world := w; trace := trace st ++ [Do client req answer] |} in
    match answer with
    | inl e => (Err e, st')
    | inr resp => (Val resp, st')
    end.

(** [int64] arithmetic wraps around. *)
Definition int64 (z : Z) : Z := (z + 2 ^ 63) mod 2 ^ 64 - 2 ^ 63.

Definition time_Second : Z := 1000000000.

(** [time.Sleep(d)], [d] in nanoseconds *)
Definition time_Sleep `{Runtime} (d : Z) : M unit :=
  fun st => (Val tt, {| world := time_passes d (world st); trace := trace st ++ [Sleep d] |}).

(** ** [polling] *)

(** the client [polling] builds for itself *)
Definition polling_client : http.Client :=
  {| http.Transport_ :=
       Some {| http.TLSClientConfig := Some {| tls.InsecureSkipVerify := true |} |} |}.

Definition polling `{Runtime} (baseURL : string) (pce : PCE) (origResp : http_Response)
  : M asyncResults :=
  let results := zero_asyncResults in
  (* Create HTTP client and request *)
  let client := polling_client in
  pollReq <- try (http_NewRequest "GET" (baseURL ++ Header_Get (resp_Header origResp) "Location") None) ;;
  (* Set basic authentication and headers *)
  let pollReq := http.SetBasicAuth pollReq (User pce) (Key pce) in
  let pollReq := http.SetHeader pollReq "Content-Type" "application/json" in
  (* Wait for recommended time from Retry-After *)
  wait <- try (strconv_Atoi (Header_Get (resp_Header origResp) "Retry-After")) ;;
  let duration := int64 (wait * time_Second) in
  time_Sleep duration ;;;
  (* Check if the data is ready *)
  pollResp <- client_Do client pollReq ;;
  (* Process Response *)
  data <- try_read (ioutil_ReadAll (resp_Body pollResp)) ;;
  (* Put relevant response info into struct; the error of Unmarshal is dropped *)
  ret (fst (json_Unmarshal data results)).

(** ** [apicall] *)

(** [for asyncResults.Status != "done" { asyncResults, err = polling(...) }]:
    the source puts no bound on the loop; [fuel] bounds the cycles the model
    unfolds and [Spin] is the answer when it is used up. *)
Fixpoint poll_loop `{Runtime} (fuel : nat) (baseURL : string) (pce : PCE)
  (resp : http_Response) (results : asyncResults) : M asyncResults :=
  if (Status results =? "done")%string then ret results
  else match fuel with
       | O => spin
       | S fuel' =>
           results <- polling baseURL pce resp ;;
           poll_loop fuel' baseURL pce resp results
       end.

(** the client of the first request and of the result fetch *)
Definition apicall_client (pce : PCE) : http.Client :=
  {| http.Transport_ :=
       if DisableTLSChecking pce
       then Some {| http.TLSClientConfig := Some {| tls.InsecureSkipVerify := true |} |}
       else None |}.

Definition invalid_action : error :=
  errorString "invalid http action string. action must be GET, POST, PUT, or DELETE".

(** the test of line 63, on the action already in upper case *)
Definition action_refused (httpAction : string) : bool :=
  negb (httpAction =? "GET")%string && negb (httpAction =? "POST")%string
  && negb (httpAction =? "PUT")%string && negb (httpAction =? "DELETE")%string.

(** lines 107-120: the request for the result of the finished job *)
Definition fetch_result `{Runtime} (baseURL : string) (pce : PCE) (httpBody : option string)
  (client : http.Client) (results : asyncResults) : M http_Response :=
  finalReq <- try (http_NewRequest "GET" (baseURL ++ Href_ (Result results)) httpBody) ;;
  (* Set basic authentication and headers *)
  let finalReq := http.SetBasicAuth finalReq (User pce) (Key pce) in
  let finalReq := http.SetHeader finalReq "Content-Type" "application/json" in
  (* Make HTTP Request *)
  client_Do client finalReq.

(** lines 61-121: validate, build and send the request, and for an
    asynchronous call poll the job and fetch its result. The answer is the
    response that line 124 goes on to read. *)
Definition send_request `{Runtime} (fuel : nat) (httpAction apiURL : string) (pce : PCE)
  (body : string) (async : bool) : M http_Response :=
  (* Validate the provided action *)
  let httpAction := strings_ToUpper httpAction in
  if action_refused httpAction
  then try (inl invalid_action)
  else
    (* Get the base URL: the error of url.Parse is not looked at *)
    u <- deref (url_Parse apiURL) ;;
    let baseURL := "https://" ++ url.Host u ++ "/api/v1" in
    (* Create body *)
    let httpBody := Some body in
    (* Create HTTP client and request *)
    let client := apicall_client pce in
    req <- try (http_NewRequest httpAction apiURL httpBody) ;;
    (* Set basic authentication and headers *)
    let req := http.SetBasicAuth req (User pce) (Key pce) in
    let req := http.SetHeader req "Content-Type" "application/json" in
    let req := if async then http.SetHeader req "Prefer" "respond-async" else req in
    (* Make HTTP Request *)
    resp <- client_Do client req ;;
    (* Process Async requests *)
    if async then
      results <- poll_loop fuel baseURL pce resp zero_asyncResults ;;
      fetch_result baseURL pce httpBody client results
    else ret resp.

(** lines 123-141: read the body, fill the response, check the status code *)
Definition process_response `{Runtime} (resp : http_Response) : M (APIResponse * option error) :=
  data <- try_read (ioutil_ReadAll (resp_Body resp)) ;;
  (* Put relevant response info into struct *)
  let response :=
    {| RespBody := data; StatusCode := resp_StatusCode resp;
       Header := resp_Header resp; Request := resp_Request resp |} in
  (* Check for a 200 response code *)
  if negb (slice (strconv_Itoa (resp_StatusCode resp)) 0 1 =? "2")%string
  then ret (response, Some (errorString ("http status code of " ++ strconv_Itoa (StatusCode response))))
  else ret (response, None).

Definition apicall_steps `{Runtime} (fuel : nat) (httpAction apiURL : string) (pce : PCE)
  (body : string) (async : bool) : M (APIResponse * option error) :=
  resp <- send_request fuel httpAction apiURL pce body async ;;
  process_response resp.

(** What the caller of [apicall] sees. *)
Inductive outcome :=
| Returns (response : APIResponse) (err : option error)
| Panics
| Unfinished.

(** [apicall]: every early [return response, err] hands back the zero
    [response], which is filled in after the last read only. *)
Definition apicall `{Runtime} (fuel : nat) (httpAction apiURL : string) (pce : PCE)
  (body : string) (async : bool) (st : state) : outcome * state :=
  match apicall_steps fuel httpAction apiURL pce body async st with
  | (Val (response, err), st') => (Returns response err, st')
  | (Err e, st') => (Returns zero_APIResponse (Some e), st')
  | (Crash, st') => (Panics, st')
  | (Spin, st') => (Unfinished, st')
  end.

(** ** The requests and events of a call, by name *)

(** the base URL of line 69 *)
Definition base_url (u : url.URL) : string := "https://" ++ url.Host u ++ "/api/v1".

Definition bare_request (method url : string) (body : option string) : http.Request :=
  {| http.Method := method; http.URL := url; http.Header := ∅;
     http.Body := body; http.BasicAuth := None |}.

Definition authorised (req : http.Request) (pce : PCE) : http.Request :=
  http.SetHeader (http.SetBasicAuth req (User pce) (Key pce)) "Content-Type" "application/json".

(** the request of line 93 *)
Definition first_request `{Runtime} (httpAction apiURL : string) (pce : PCE)
  (body : string) (async : bool) : http.Request :=
  let req := authorised (bare_request (strings_ToUpper httpAction) apiURL (Some body)) pce in
  if async then http.SetHeader req "Prefer" "respond-async" else req.

(** the request of line 171 *)
Definition poll_request (baseURL : string) (pce : PCE) (origResp : http_Response) : http.Request :=
  authorised (bare_request "GET" (baseURL ++ Header_Get (resp_Header origResp) "Location") None) pce.

(** the request of line 117 *)
Definition final_request (baseURL : string) (pce : PCE) (body : string)
  (results : asyncResults) : http.Request :=
  authorised (bare_request "GET" (baseURL ++ Href_ (Result results)) (Some body)) pce.

(** the state after an exchange that the world answers with [answer] *)
Definition after_Do `{Runtime} (st : state) (client : http.Client) (req : http.Request)
  (answer : error + http_Response) (w : World) : state :=
  {| world := w; trace := trace st ++ [Do client req answer] |}.

(** the wait that line 163 reads from the header of [origResp] *)
Definition retry_after (origResp : http_Response) : error + Z :=
  strconv_Atoi (Header_Get (resp_Header origResp) "Retry-After").

(** the duration of line 167, [0] when there is no wait to read *)
Definition poll_wait (origResp : http_Response) : Z :=
  match retry_after origResp with
  | inr wait => int64 (wait * time_Second)
  | inl _ => 0
  end.

(** the URL of the job-status resource *)
Definition job_url (baseURL : string) (origResp : http_Response) : string :=
  baseURL ++ Header_Get (resp_Header origResp) "Location".

(** the events of one poll cycle that waits [d] and gets [answer] *)
Definition poll_cycle (baseURL : string) (pce : PCE) (origResp : http_Response)
  (d : Z) (answer : error + http_Response) : list event :=
  [Sleep d; Do polling_client (poll_request baseURL pce origResp) answer].

(** the events of the asynchronous part of a call: poll cycles, each a
    sleep and then the job-status request, and at most one result fetch
    after them *)
Definition async_events (baseURL : string) (pce : PCE) (body : string)
  (origResp : http_Response) (evs : list event) : Prop :=
  exists answers fin,
    evs = (flat_map (poll_cycle baseURL pce origResp (poll_wait origResp)) answers ++ fin)%list
    /\ (fin = []
        \/ exists results answer,
            fin = [Do (apicall_client pce) (final_request baseURL pce body results) answer]).

(** the response that [apicall] fills in from [resp] and the bytes read *)
Definition filled (resp : http_Response) (data : string) : APIResponse :=
  {| RespBody := data; StatusCode := resp_StatusCode resp;
     Header := resp_Header resp; Request := resp_Request resp |}.

Definition status_error (code : Z) : error :=
  errorString ("http status code of " ++ strconv_Itoa code).

(** ** Vocabulary of the specification *)

(** The decimal numeral of [n] starts with the digit [d]. *)
Definition leading_digit (n d : Z) : Prop :=
  exists k, 0 <= k /\ d * 10 ^ k <= n < (d + 1) * 10 ^ k.

(** the four actions of the API *)
Definition actions : list string := ["GET"; "POST"; "PUT"; "DELETE"].

(** Two byte strings that differ in the case of ASCII letters only. *)
Fixpoint same_letters (a b : string) : bool :=
  match a, b with
  | EmptyString, EmptyString => true
  | String x a', String y b' => (byte (upper_byte x) =? byte (upper_byte y)) && same_letters a' b'
  | _, _ => false
  end.

(** Two strings are equal when compared case-insensitively: they are the
    same once put in upper case. On ASCII strings this is [same_letters]. *)
Definition equal_fold `{Runtime} (a b : string) : Prop :=
  strings_ToUpper a = strings_ToUpper b.

(** ** A scripted runtime

    A server that answers from a script, one entry per request, and the
    library calls on the inputs the scripted runs make: enough to run
    [apicall] from end to end on concrete exchanges. *)

Module Scripted.

Definition is_control (c : ascii) : bool := (byte c <? 32) || (byte c =? 127).

Fixpoint has_byte (p : ascii -> bool) (s : string) : bool :=
  match s with
  | EmptyString => false
  | String c s' => p c || has_byte p s'
  end.

(** the bytes before the first [/], and the rest *)
Fixpoint split_slash (s : string) : string * string :=
  match s with
  | EmptyString => (EmptyString, EmptyString)
  | String c s' =>
      if (byte c =? 47) then (EmptyString, s)
      else let (h, p) := split_slash s' in (String c h, p)
  end.

(** [url.Parse] on the URLs of the scripted runs, [https://host/path]
    without query or fragment: a control byte anywhere is refused (invalid
    control character in URL), as is a leading colon (missing protocol
    scheme); a string without the [https] scheme is taken as a path. *)
Definition Parse (raw : string) : error + url.URL :=
  if has_byte is_control raw
  then inl (url_Error "parse" raw "net/url: invalid control character in URL")
  else if strings_HasPrefix raw ":"
  then inl (url_Error "parse" raw "missing protocol scheme")
  else if strings_HasPrefix raw "https://"
  then let (h, p) := split_slash (slice raw 8 (len raw)) in
       inr {| url.Scheme := "https"; url.Host := h; url.Path := p |}
  else inr {| url.Scheme := ""; url.Host := ""; url.Path := raw |}.

(** the server: the next scripted answer, or a refused connection *)
Definition RoundTrip (c : http.Client) (req : http.Request)
  (w : list (error + http_Response)) : (error + http_Response) * list (error + http_Response) :=
  match w with
  | [] => (inl (other_error "connection refused"), [])
  | answer :: w' => (answer, w')
  end.

Definition dq : string := String (ascii_of_nat 34) EmptyString.

(** a JSON string literal *)
Definition js (s : string) : string := dq ++ s ++ dq.

(** the job-status bodies of the scripted runs: a pending job, a finished
    job, a finished job whose [result] is a number instead of an object, and
    a body cut short *)
Definition body_pending : string :=
  "{" ++ js "status" ++ ":" ++ js "pending" ++ ","
  ++ js "result" ++ ":{" ++ js "href" ++ ":" ++ js "" ++ "}}".

Definition body_done : string :=
  "{" ++ js "status" ++ ":" ++ js "done" ++ ","
  ++ js "result" ++ ":{" ++ js "href" ++ ":" ++ js "/results/123" ++ "}}".

Definition body_mistyped : string :=
  "{" ++ js "status" ++ ":" ++ js "done" ++ "," ++ js "result" ++ ":5}".

Definition body_cut : string :=
  "{" ++ js "status" ++ ":" ++ js "do".

Definition set_status (v : asyncResults) (status : string) : asyncResults :=
  {| Href := Href v; JobType := JobType v; Description := Description v;
     Result := Result v; Status := status; RequestedAt := RequestedAt v;
     TerminatedAt := TerminatedAt v; RequestedBy := RequestedBy v |}.

Definition set_result (v : asyncResults) (href : string) : asyncResults :=
  {| Href := Href v; JobType := JobType v; Description := Description v;
     Result := {| Href_ := href |}; Status := Status v; RequestedAt := RequestedAt v;
     TerminatedAt := TerminatedAt v; RequestedBy := RequestedBy v |}.

(** [json.Unmarshal] on those bodies, as [encoding/json] documents it: a
    well-typed object fills the fields it names; a value of the wrong type
    for its field is skipped, the rest is decoded and an
    [UnmarshalTypeError] is returned; input that is not valid JSON is
    refused before anything is stored. A body outside the script is taken
    as not valid. *)
Definition Unmarshal (data : string) (v : asyncResults) : asyncResults * option error :=
  if (data =? body_pending)%string then (set_result (set_status v "pending") "", None)
  else if (data =? body_done)%string then (set_result (set_status v "done") "/results/123", None)
  else if (data =? body_mistyped)%string
  then (set_status v "done",
        Some (other_error "json: cannot unmarshal number into Go struct field asyncResults.result"))
  else (v, Some (other_error "unexpected end of JSON input")).

#[local] Instance runtime : Runtime := {|
  World := list (error + http_Response);
  unicode_ToUpper := fun s => s;
  url_Parse := Parse;
  http_RoundTrip := RoundTrip;
  json_Unmarshal := Unmarshal;
  time_passes := fun _ w => w
|}.

Definition pce : PCE :=
  {| FQDN := "pce.example.com"; Port := 8443; Org := 1; User := "api_1";
     Key := "secret"; DisableTLSChecking := false |}.

Definition apiURL : string := "https://pce.example.com:8443/api/v1/orgs/1/workloads".

(** what [url.Parse] makes of [apiURL], and the base URL of the calls *)
Definition parsed : url.URL :=
  {| url.Scheme := "https"; url.Host := "pce.example.com:8443";
     url.Path := "/api/v1/orgs/1/workloads" |}.

Definition base : string := "https://pce.example.com:8443/api/v1".

(** a URL that [url.Parse] refuses: missing protocol scheme *)
Definition bad_url : string := ":8443/api/v1/orgs/1/workloads".

(** a response whose body reads without error *)
Definition reply (code : Z) (h : http_Header) (body : string) : http_Response :=
  {| resp_StatusCode := code; resp_Header := h; resp_Body := (body, None);
     resp_Request := None |}.

(** a response whose body breaks off while it is read *)
Definition broken (code : Z) (h : http_Header) (part : string) : http_Response :=
  {| resp_StatusCode := code; resp_Header := h;
     resp_Body := (part, Some (other_error "unexpected EOF")); resp_Request := None |}.

(** the acknowledgment of an asynchronous submission *)
Definition accepted : http_Response :=
  reply 202 (<["Location" := ["/jobs/123"]]> (<["Retry-After" := ["0"]]> ∅)) "".


(** the world at the start of a run, the answers of the server in order *)
Definition start (script : list http_Response) : state :=
  {| world := map inr script; trace := [] |}.

(** the world once the first [n] answers are used up *)
Definition served (n : nat) (script : list http_Response) (evs : list event) : state :=
  {| world := map inr (drop n script); trace := evs |}.

(** the scripted asynchronous run of the specification: two polls without
    any header, then the result *)
Definition two_polls : list http_Response :=
  [accepted; reply 200 ∅ body_pending; reply 200 ∅ body_done; reply 200 ∅ "ok"].

(** what [json.Unmarshal] makes of the finished and of the mistyped body *)
Definition job_done : asyncResults :=
  set_result (set_status zero_asyncResults "done") "/results/123".

Definition job_mistyped : asyncResults := set_status zero_asyncResults "done".

End Scripted.

(** * The callers of the transport ([explorer.go], [pairing.go]) *)

(** ** Slices

    A Go slice is nil or holds a sequence of elements; [len] and [range]
    see a nil slice as empty, [append] makes it non-nil, and
    [encoding/json] writes nil and empty differently. *)
Definition Slice (A : Type) : Type := option (list A).

(** the elements [range] goes through *)
Definition elems {A} (s : Slice A) : list A :=
  match s with
  | Some l => l
  | None => []
  end.

(** [make([]T, 0)] *)
Definition make0 {A} : Slice A := Some [].

(** [append(s, x)] *)
Definition go_append {A} (s : Slice A) (x : A) : Slice A := Some (elems s ++ [x])%list.

(** ** Declarations of the package that are in none of the three files

    [Label], [Workload], [CreatedBy] and [UpdatedBy] are structs of the
    package declared elsewhere; the code at hand builds a [Label] and a
    [Workload] from an href alone. [time.Time] is the library's. *)
Class Declarations := {
  Label : Type;
  (** [Label{Href: href}] *)
  Label_Href : string -> Label;
  Workload : Type;
  (** [Workload{Href: href}] *)
  Workload_Href : string -> Workload;
  CreatedBy : Type;
  UpdatedBy : Type;
  time_Time : Type
}.

(** ** The types of [explorer.go] *)

(** IPAddress represents an IP Address *)
Module IPAddress.
Record t := { Value : string }.
End IPAddress.

(** Include represents the type of objects used in an include query. *)
Module Include.
Record t `{Declarations} := {
  Label : option Label;
  Workload : option Workload;
  IPAddress : option IPAddress.t;
  Port : Z;
  ToPort : Z;
  Proto : Z;
  Process : string;
  WindowsService : string
}.
End Include.

(** Exclude represents the type of objects used in an include query. *)
Module Exclude.
Record t `{Declarations} := {
  Label : option Label;
  Workload : option Workload;
  IPAddress : option IPAddress.t;
  Port : Z;
  ToPort : Z;
  Proto : Z;
  Process : string;
  WindowsService : string
}.
End Exclude.

(** Sources represents the sources query portion of the explorer API *)
Module Sources.
Record t `{Declarations} := {
  Include : Slice (Slice Include.t);
  Exclude : Slice Exclude.t
}.
End Sources.

(** Destinations represents the destination query portion of the explorer API *)
Module Destinations.
Record t `{Declarations} := {
  Include : Slice (Slice Include.t);
  Exclude : Slice Exclude.t
}.
End Destinations.

(** ExplorerServices represent services to be included or excluded in the
    explorer query *)
Module ExplorerServices.
Record t `{Declarations} := {
  Include : Slice Include.t;
  Exclude : Slice Exclude.t
}.
End ExplorerServices.

(** TrafficAnalysisRequest represents the payload object for the traffic
    analysis POST request *)
Module TrafficAnalysisRequest.
Record t `{Declarations} := {
  Sources : Sources.t;
  Destinations : Destinations.t;
  ExplorerServices : ExplorerServices.t;
  StartDate : time_Time;
  EndDate : time_Time;
  PolicyDecisions : Slice string;
  MaxResults : Z
}.
End TrafficAnalysisRequest.

(** ExpSrv is a service in the explorer response *)
Module ExpSrv.
Record t := { Port : Z; Proto : Z; Process : string; WindowsService : string }.
End ExpSrv.

(** Dst is the provider workload details *)
Module Dst.
Record t `{Declarations} := { IP : string; Workload : option Workload }.
End Dst.

(** Src is the consumer workload details *)
Module Src.
Record t `{Declarations} := { IP : string; Workload : option Workload }.
End Src.

(** TimestampRange is used to limit queries ranges for the flow detected *)
Module TimestampRange.
Record t := { FirstDetected : string; LastDetected : string }.
End TimestampRange.

(** TrafficAnalysis represents the response from the explorer API *)
Module TrafficAnalysis.
Record t `{Declarations} := {
  Dst : option Dst.t;
  NumConnections : Z;
  PolicyDecision : string;
  ExpSrv : option ExpSrv.t;
  Src : option Src.t;
  TimestampRange : option TimestampRange.t
}.
End TrafficAnalysis.

(** TrafficQuery is the struct to be passed to the GetTrafficAnalysis
    function; a [[2]int] is a pair. *)
Record TrafficQuery `{Declarations} := {
  SourcesInclude : Slice string;
  SourcesExclude : Slice string;
  DestinationsInclude : Slice string;
  DestinationsExclude : Slice string;
  PortProtoInclude : Slice (Z * Z);
  PortProtoExclude : Slice (Z * Z);
  PortRangeInclude : Slice (Z * Z);
  PortRangeExclude : Slice (Z * Z);
  ProcessInclude : Slice string;
  WindowsServiceInclude : Slice string;
  ProcessExclude : Slice string;
  WindowsServiceExclude : Slice string;
  StartTime : time_Time;
  EndTime : time_Time;
  PolicyStatuses : Slice string;
  MaxFLows : Z
}.

(** ** The types of [pairing.go] *)

(** PairingProfile represents a pairing profile in the Illumio PCE *)
Module PairingProfile.
Record t `{Declarations} := {
  AllowedUsesPerKey : string;
  AppLabelLock : bool;
  CreatedAt : string;
  CreatedBy : option CreatedBy;
  Description : string;
  Enabled : bool;
  EnvLabelLock : bool;
  ExternalDataReference : string;
  ExternalDataSet : string;
  Href : string;
  IsDefault : bool;
  KeyLifespan : string;
  Labels : Slice (option Label);
  LastPairingAt : string;
  LocLabelLock : bool;
  LogTraffic : bool;
  LogTrafficLock : bool;
  Mode : string;
  ModeLock : bool;
  Name : string;
  RoleLabelLock : bool;
  TotalUseCount : Z;
  UpdatedAt : string;
  UpdatedBy : option UpdatedBy;
  VisibilityLevel : string;
  VisibilityLevelLock : bool
}.
End PairingProfile.

(** ** The library calls of the callers *)
Class Library `{Declarations} := {
  (** [json.Marshal] of the request payloads *)
  json_Marshal_request : TrafficAnalysisRequest.t -> error + string;
  json_Marshal_profile : PairingProfile.t -> error + string;
  (** [json.Unmarshal(data, &v)] into the response slices: the value left
      in [v] and the error *)
  json_Unmarshal_flows :
    string -> Slice TrafficAnalysis.t -> Slice TrafficAnalysis.t * option error;
  json_Unmarshal_profiles :
    string -> Slice PairingProfile.t -> Slice PairingProfile.t * option error;
  (** [u.String()] for the [u] that [url.Parse] made of the given string *)
  URL_String : string -> string;
  (** [err.Error()] of an error of the library *)
  Error_text : error -> string
}.

(** [err.Error()]: the text of an [errors.New] value is the text given. *)
Definition error_Error `{Library} (e : error) : string :=
  match e with
  | errorString s => s
  | _ => Error_text e
  end.

(** [fmt.Errorf(prefix + "%s", err)] *)
Definition fmt_Errorf `{Library} (prefix : string) (err : error) : error :=
  errorString (prefix ++ error_Error err).

(** ** [GetTrafficAnalysis]: from the query to the payload *)

(** the zero [Include] and [Exclude] *)
Definition Include_zero `{Declarations} : Include.t :=
  {| Include.Label := None; Include.Workload := None; Include.IPAddress := None;
     Include.Port := 0; Include.ToPort := 0; Include.Proto := 0;
     Include.Process := ""; Include.WindowsService := "" |}.

Definition Exclude_zero `{Declarations} : Exclude.t :=
  {| Exclude.Label := None; Exclude.Workload := None; Exclude.IPAddress := None;
     Exclude.Port := 0; Exclude.ToPort := 0; Exclude.Proto := 0;
     Exclude.Process := ""; Exclude.WindowsService := "" |}.

(** the struct literals of the function, for [Include] *)
Definition Include_Label `{Declarations} (l : Label) : Include.t :=
  {| Include.Label := Some l; Include.Workload := None; Include.IPAddress := None;
     Include.Port := 0; Include.ToPort := 0; Include.Proto := 0;
     Include.Process := ""; Include.WindowsService := "" |}.

Definition Include_Workload `{Declarations} (w : Workload) : Include.t :=
  {| Include.Label := None; Include.Workload := Some w; Include.IPAddress := None;
     Include.Port := 0; Include.ToPort := 0; Include.Proto := 0;
     Include.Process := ""; Include.WindowsService := "" |}.

Definition Include_IPAddress `{Declarations} (a : IPAddress.t) : Include.t :=
  {| Include.Label := None; Include.Workload := None; Include.IPAddress := Some a;
     Include.Port := 0; Include.ToPort := 0; Include.Proto := 0;
     Include.Process := ""; Include.WindowsService := "" |}.

Definition Include_PortProto `{Declarations} (port proto : Z) : Include.t :=
  {| Include.Label := None; Include.Workload := None; Include.IPAddress := None;
     Include.Port := port; Include.ToPort := 0; Include.Proto := proto;
     Include.Process := ""; Include.WindowsService := "" |}.

Definition Include_PortRange `{Declarations} (port toPort : Z) : Include.t :=
  {| Include.Label := None; Include.Workload := None; Include.IPAddress := None;
     Include.Port := port; Include.ToPort := toPort; Include.Proto := 0;
     Include.Process := ""; Include.WindowsService := "" |}.

Definition Include_Process `{Declarations} (process : string) : Include.t :=
  {| Include.Label := None; Include.Workload := None; Include.IPAddress := None;
     Include.Port := 0; Include.ToPort := 0; Include.Proto := 0;
     Include.Process := process; Include.WindowsService := "" |}.

Definition Include_WindowsService `{Declarations} (winSrv : string) : Include.t :=
  {| Include.Label := None; Include.Workload := None; Include.IPAddress := None;
     Include.Port := 0; Include.ToPort := 0; Include.Proto := 0;
     Include.Process := ""; Include.WindowsService := winSrv |}.

(** and for [Exclude] *)
Definition Exclude_Label `{Declarations} (l : Label) : Exclude.t :=
  {| Exclude.Label := Some l; Exclude.Workload := None; Exclude.IPAddress := None;
     Exclude.Port := 0; Exclude.ToPort := 0; Exclude.Proto := 0;
     Exclude.Process := ""; Exclude.WindowsService := "" |}.

Definition Exclude_Workload `{Declarations} (w : Workload) : Exclude.t :=
  {| Exclude.Label := None; Exclude.Workload := Some w; Exclude.IPAddress := None;
     Exclude.Port := 0; Exclude.ToPort := 0; Exclude.Proto := 0;
     Exclude.Process := ""; Exclude.WindowsService := "" |}.

Definition Exclude_IPAddress `{Declarations} (a : IPAddress.t) : Exclude.t :=
  {| Exclude.Label := None; Exclude.Workload := None; Exclude.IPAddress := Some a;
     Exclude.Port := 0; Exclude.ToPort := 0; Exclude.Proto := 0;
     Exclude.Process := ""; Exclude.WindowsService := "" |}.

Definition Exclude_PortProto `{Declarations} (port proto : Z) : Exclude.t :=
  {| Exclude.Label := None; Exclude.Workload := None; Exclude.IPAddress := None;
     Exclude.Port := port; Exclude.ToPort := 0; Exclude.Proto := proto;
     Exclude.Process := ""; Exclude.WindowsService := "" |}.

Definition Exclude_PortRange `{Declarations} (port toPort : Z) : Exclude.t :=
  {| Exclude.Label := None; Exclude.Workload := None; Exclude.IPAddress := None;
     Exclude.Port := port; Exclude.ToPort := toPort; Exclude.Proto := 0;
     Exclude.Process := ""; Exclude.WindowsService := "" |}.

Definition Exclude_Process `{Declarations} (process : string) : Exclude.t :=
  {| Exclude.Label := None; Exclude.Workload := None; Exclude.IPAddress := None;
     Exclude.Port := 0; Exclude.ToPort := 0; Exclude.Proto := 0;
     Exclude.Process := process; Exclude.WindowsService := "" |}.

Definition Exclude_WindowsService `{Declarations} (winSrv : string) : Exclude.t :=
  {| Exclude.Label := None; Exclude.Workload := None; Exclude.IPAddress := None;
     Exclude.Port := 0; Exclude.ToPort := 0; Exclude.Proto := 0;
     Exclude.Process := ""; Exclude.WindowsService := winSrv |}.

(** the four slices that the first loop fills *)
Record endpoints `{Declarations} := {
  sourceInc : Slice Include.t;
  destInc : Slice Include.t;
  sourceExcl : Slice Exclude.t;
  destExcl : Slice Exclude.t
}.

(** [switch i { case 0: sourceInc = append(sourceInc, ...) ... }]: the
    entry goes to the slice that the counter names. *)
Definition add_entry `{Declarations} (i : nat) (inc : Include.t) (exc : Exclude.t)
  (a : endpoints) : endpoints :=
  match i with
  | 0%nat => {| sourceInc := go_append (sourceInc a) inc; destInc := destInc a;
                sourceExcl := sourceExcl a; destExcl := destExcl a |}
  | 1%nat => {| sourceInc := sourceInc a; destInc := go_append (destInc a) inc;
                sourceExcl := sourceExcl a; destExcl := destExcl a |}
  | 2%nat => {| sourceInc := sourceInc a; destInc := destInc a;
                sourceExcl := go_append (sourceExcl a) exc; destExcl := destExcl a |}
  | 3%nat => {| sourceInc := sourceInc a; destInc := destInc a;
                sourceExcl := sourceExcl a; destExcl := go_append (destExcl a) exc |}
  | _ => a
  end.

(** the body of the first loop (lines 158-209) for the list at position
    [i]: the first entry decides what all the entries of [queryLists[i]]
    are taken for. *)
Definition translate_list `{Declarations} (queryLists : list (Slice string)) (i : nat)
  (queryList : Slice string) (a : endpoints) : endpoints :=
  match elems queryList with
  | [] => a
  | first :: _ =>
      let members := elems (nth i queryLists None) in
      (* Labels *)
      if strings_Contains first "label" then
        fold_left (fun a label =>
                     let queryLabel := Label_Href label in
                     add_entry i (Include_Label queryLabel) (Exclude_Label queryLabel) a)
          members a
      (* Workloads *)
      else if strings_Contains first "workload" then
        fold_left (fun a workload =>
                     let queryWorkload := Workload_Href workload in
                     add_entry i (Include_Workload queryWorkload)
                       (Exclude_Workload queryWorkload) a)
          members a
      (* Assume all else are IP addresses (API will error when needed) *)
      else if (0 <? len first)%nat then
        fold_left (fun a ipAddress =>
                     let queryIPAddress := {| IPAddress.Value := ipAddress |} in
                     add_entry i (Include_IPAddress queryIPAddress)
                       (Exclude_IPAddress queryIPAddress) a)
          members a
      else a
  end.

(** lines 143-212 *)
Definition translate_endpoints `{Declarations} (query : TrafficQuery) : endpoints :=
  let start := {| sourceInc := make0; destInc := make0;
                  sourceExcl := make0; destExcl := make0 |} in
  let queryLists := [SourcesInclude query; DestinationsInclude query;
                     SourcesExclude query; DestinationsExclude query] in
  snd (fold_left (fun '(i, a) queryList => (S i, translate_list queryLists i queryList a))
         queryLists (0%nat, start)).

(** lines 215-256: the service data *)
Definition translate_services `{Declarations} (query : TrafficQuery)
  : Slice Include.t * Slice Exclude.t :=
  let serviceInclude := make0 in
  let serviceExclude := make0 in
  (* Port and protocol *)
  let serviceInclude :=
    fold_left (fun s portProto => go_append s (Include_PortProto (fst portProto) (snd portProto)))
      (elems (PortProtoInclude query)) serviceInclude in
  let serviceExclude :=
    fold_left (fun s portProto => go_append s (Exclude_PortProto (fst portProto) (snd portProto)))
      (elems (PortProtoExclude query)) serviceExclude in
  (* Port Range *)
  let serviceInclude :=
    fold_left (fun s portRange => go_append s (Include_PortRange (fst portRange) (snd portRange)))
      (elems (PortRangeInclude query)) serviceInclude in
  let serviceExclude :=
    fold_left (fun s portRange => go_append s (Exclude_PortRange (fst portRange) (snd portRange)))
      (elems (PortRangeExclude query)) serviceExclude in
  (* Process *)
  let serviceInclude :=
    fold_left (fun s process => go_append s (Include_Process process))
      (elems (ProcessInclude query)) serviceInclude in
  let serviceExclude :=
    fold_left (fun s process => go_append s (Exclude_Process process))
      (elems (ProcessExclude query)) serviceExclude in
  (* Windows Service *)
  let serviceInclude :=
    fold_left (fun s winSrv => go_append s (Include_WindowsService winSrv))
      (elems (WindowsServiceInclude query)) serviceInclude in
  let serviceExclude :=
    fold_left (fun s winSrv => go_append s (Exclude_WindowsService winSrv))
      (elems (WindowsServiceExclude query)) serviceExclude in
  (serviceInclude, serviceExclude).

(** lines 258-272: Build the TrafficAnalysisRequest struct *)
Definition build_request `{Declarations} (query : TrafficQuery) : TrafficAnalysisRequest.t :=
  let e := translate_endpoints query in
  let s := translate_services query in
  {| TrafficAnalysisRequest.Sources :=
       {| Sources.Include := Some [sourceInc e]; Sources.Exclude := sourceExcl e |};
     TrafficAnalysisRequest.Destinations :=
       {| Destinations.Include := Some [destInc e]; Destinations.Exclude := destExcl e |};
     TrafficAnalysisRequest.ExplorerServices :=
       {| ExplorerServices.Include := fst s; ExplorerServices.Exclude := snd s |};
     TrafficAnalysisRequest.StartDate := StartTime query;
     TrafficAnalysisRequest.EndDate := EndTime query;
     TrafficAnalysisRequest.PolicyDecisions := PolicyStatuses query;
     TrafficAnalysisRequest.MaxResults := MaxFLows query |}.

(** ** The calls of the API *)

(** What the caller of one of the exported functions sees: the values
    returned, a panic, or no answer within the loop bound of the model. *)
Inductive reply (A : Type) :=
| Gives (value : A) (api : APIResponse) (err : option error)
| Crashes
| Stalls.

Arguments Gives {A} value api err.
Arguments Crashes {A}.
Arguments Stalls {A}.

(** the URL of a resource of the organisation *)
Definition org_url (pce : PCE) (resource : string) : string :=
  "https://" ++ pceSanitization (FQDN pce) ++ ":" ++ strconv_Itoa (Port pce)
  ++ "/api/v1/orgs/" ++ strconv_Itoa (Org pce) ++ resource.

(** GetTrafficAnalysis gets flow data from Explorer. *)
Definition GetTrafficAnalysis `{Runtime} `{Library} (pce : PCE) (query : TrafficQuery)
  (st : state) : reply (Slice TrafficAnalysis.t) * state :=
  let api := zero_APIResponse in
  let traffic := build_request query in
  (* Create JSON Payload *)
  match json_Marshal_request traffic with
  | inl err => (Gives None api (Some (fmt_Errorf "get traffic analysis - " err)), st)
  | inr jsonPayload =>
      let trafficResponses : Slice TrafficAnalysis.t := None in
      (* Build the API URL *)
      let raw := org_url pce "/traffic_flows/traffic_analysis_queries" in
      match url_Parse raw with
      | inl err => (Gives None api (Some (fmt_Errorf "get traffic analysis - " err)), st)
      | inr _ =>
          (* Call the API *)
          match apicall 0 "POST" (URL_String raw) pce jsonPayload false st with
          | (Returns api (Some err), st') =>
              (Gives None api (Some (fmt_Errorf "get traffic analysis - " err)), st')
          | (Returns api None, st') =>
              (* Unmarshal response to struct; the error is dropped *)
              (Gives (fst (json_Unmarshal_flows (RespBody api) trafficResponses)) api None, st')
          | (Panics, st') => (Crashes, st')
          | (Unfinished, st') => (Stalls, st')
          end
      end
  end.

(** GetAllPairingProfiles gets all pairing profiles in the Illumio PCE. *)
Definition GetAllPairingProfiles `{Runtime} `{Library} (pce : PCE) (st : state)
  : reply (Slice PairingProfile.t) * state :=
  let pairingProfiles : Slice PairingProfile.t := None in
  let api := zero_APIResponse in
  (* Build the API URL *)
  let raw := org_url pce "/pairing_profiles" in
  match url_Parse raw with
  | inl err => (Gives pairingProfiles api (Some err), st)
  | inr _ =>
      (* Call the API; a nil body is an empty buffer *)
      match apicall 0 "GET" (URL_String raw) pce "" false st with
      | (Returns api (Some err), st') => (Gives pairingProfiles api (Some err), st')
      | (Returns api None, st') =>
          (* Unmarshal response to struct; the error is dropped *)
          (Gives (fst (json_Unmarshal_profiles (RespBody api) pairingProfiles)) api None, st')
      | (Panics, st') => (Crashes, st')
      | (Unfinished, st') => (Stalls, st')
      end
  end.

(** CreatePairingProfile creates a new pairing profile in the Illumio PCE. *)
Definition CreatePairingProfile `{Runtime} `{Library} (pce : PCE)
  (pairingProfile : PairingProfile.t) (st : state) : reply unit * state :=
  let api := zero_APIResponse in
  (* Build the API URL *)
  let raw := org_url pce "/pairing_profiles" in
  match url_Parse raw with
  | inl err => (Gives tt api (Some err), st)
  | inr _ =>
      (* Create the Payload *)
      match json_Marshal_profile pairingProfile with
      | inl err => (Gives tt api (Some err), st)
      | inr pairProfileJSON =>
          (* Call the API *)
          match apicall 0 "POST" (URL_String raw) pce pairProfileJSON false st with
          | (Returns api err, st') => (Gives tt api err, st')
          | (Panics, st') => (Crashes, st')
          | (Unfinished, st') => (Stalls, st')
          end
      end
  end.

(** the URL of the pairing key of a profile *)
Definition pairing_key_url `{Declarations} (pce : PCE) (pairingProfile : PairingProfile.t)
  : string :=
  "https://" ++ pceSanitization (FQDN pce) ++ ":" ++ strconv_Itoa (Port pce)
  ++ "/api/v1" ++ PairingProfile.Href pairingProfile ++ "/pairing_key".

(** CreatePairingKey creates a pairing key from a pairing profile. *)
Definition CreatePairingKey `{Runtime} `{Library} (pce : PCE)
  (pairingProfile : PairingProfile.t) (st : state) : reply unit * state :=
  let api := zero_APIResponse in
  (* Build the API URL *)
  let raw := pairing_key_url pce pairingProfile in
  match url_Parse raw with
  | inl err => (Gives tt api (Some err), st)
  | inr _ =>
      (* Call the API *)
      match apicall 0 "POST" (URL_String raw) pce "{}" false st with
      | (Returns api err, st') => (Gives tt api err, st')
      | (Panics, st') => (Crashes, st')
      | (Unfinished, st') => (Stalls, st')
      end
  end.

(** ** What a list of the query is taken for *)

Inductive kind := AsLabel | AsWorkload | AsIPAddress | Dropped.

(** the reading of a whole list, from its first entry *)
Definition kind_of (queryList : Slice string) : kind :=
  match elems queryList with
  | [] => Dropped
  | first :: _ =>
      if strings_Contains first "label" then AsLabel
      else if strings_Contains first "workload" then AsWorkload
      else if (0 <? len first)%nat then AsIPAddress
      else Dropped
  end.

Definition include_as `{Declarations} (k : kind) (entry : string) : Include.t :=
  match k with
  | AsLabel => Include_Label (Label_Href entry)
  | AsWorkload => Include_Workload (Workload_Href entry)
  | _ => Include_IPAddress {| IPAddress.Value := entry |}
  end.

Definition exclude_as `{Declarations} (k : kind) (entry : string) : Exclude.t :=
  match k with
  | AsLabel => Exclude_Label (Label_Href entry)
  | AsWorkload => Exclude_Workload (Workload_Href entry)
  | _ => Exclude_IPAddress {| IPAddress.Value := entry |}
  end.

(** a list entry by entry, in its order, or nothing when it is dropped *)
Definition includes_of `{Declarations} (queryList : Slice string) : list Include.t :=
  match kind_of queryList with
  | Dropped => []
  | k => map (include_as k) (elems queryList)
  end.

Definition excludes_of `{Declarations} (queryList : Slice string) : list Exclude.t :=
  match kind_of queryList with
  | Dropped => []
  | k => map (exclude_as k) (elems queryList)
  end.

(** the number of entries of a list that reach the payload: all of them,
    or none when the list is empty or opens with the empty string *)
Definition kept (queryList : Slice string) : nat :=
  match elems queryList with
  | [] => 0%nat
  | first :: rest => if (first =? "")%string then 0%nat else S (List.length rest)
  end.

(** An entry names one endpoint and nothing else: one of label, workload
    and IP address is set, the service fields are zero. *)
Definition one_endpoint `{Declarations} (x : Include.t) : Prop :=
  (match Include.Label x, Include.Workload x, Include.IPAddress x with
   | Some _, None, None | None, Some _, None | None, None, Some _ => True
   | _, _, _ => False
   end)
  /\ Include.Port x = 0 /\ Include.ToPort x = 0 /\ Include.Proto x = 0
  /\ Include.Process x = "" /\ Include.WindowsService x = "".

Definition one_endpoint_x `{Declarations} (x : Exclude.t) : Prop :=
  (match Exclude.Label x, Exclude.Workload x, Exclude.IPAddress x with
   | Some _, None, None | None, Some _, None | None, None, Some _ => True
   | _, _, _ => False
   end)
  /\ Exclude.Port x = 0 /\ Exclude.ToPort x = 0 /\ Exclude.Proto x = 0
  /\ Exclude.Process x = "" /\ Exclude.WindowsService x = "".

(** An entry names no endpoint. *)
Definition no_endpoint `{Declarations} (x : Include.t) : Prop :=
  Include.Label x = None /\ Include.Workload x = None /\ Include.IPAddress x = None.

Definition no_endpoint_x `{Declarations} (x : Exclude.t) : Prop :=
  Exclude.Label x = None /\ Exclude.Workload x = None /\ Exclude.IPAddress x = None.

(** ** Requests in a trace *)

(** A request carries the credentials of the PCE and announces JSON. *)
Definition credentialed (pce : PCE) (req : http.Request) : Prop :=
  http.BasicAuth req = Some (User pce, Key pce)
  /\ Header_Get (http.Header req) "Content-Type" = "application/json".

(** A request is a plain GET: no [Prefer] header. *)
Definition plain_GET (req : http.Request) : Prop :=
  http.Method req = "GET" /\ Header_Get (http.Header req) "Prefer" = "".

(** The call from [st] to [st'] sent nothing, or sent [req] through [client]
    and did nothing else. *)
Definition sends_at_most `{Runtime} (st st' : state) (client : http.Client)
  (req : http.Request) : Prop :=
  trace st' = trace st
  \/ exists answer, trace st' = (trace st ++ [Do client req answer])%list.

(** The caller got values back. *)
Definition answered {A} (r : reply A) : Prop :=
  match r with
  | Gives _ _ _ => True
  | _ => False
  end.

(** Two PCEs with the same user, key and TLS setting. *)
Definition same_credentials (pce pce' : PCE) : Prop :=
  User pce = User pce' /\ Key pce = Key pce'
  /\ DisableTLSChecking pce = DisableTLSChecking pce'.

(** [pce] with another host string *)
Definition with_FQDN (pce : PCE) (fqdn : string) : PCE :=
  {| FQDN := fqdn; Port := Port pce; Org := Org pce; User := User pce; Key := Key pce;
     DisableTLSChecking := DisableTLSChecking pce |}.

(** the ways of writing the host [h]: bare, with a slash after it, with
    the scheme before it, with both *)
Definition fqdn_forms (h : string) : list string :=
  [h; h ++ "/"; "https://" ++ h; "https://" ++ h ++ "/"].

(** the requests sent, in order *)
Fixpoint requests (evs : list event) : list http.Request :=
  match evs with
  | [] => []
  | Do _ req _ :: evs' => req :: requests evs'
  | Sleep _ :: evs' => requests evs'
  end.

(** the number of sleeps *)
Fixpoint sleeps (evs : list event) : nat :=
  match evs with
  | [] => 0%nat
  | Do _ _ _ :: evs' => sleeps evs'
  | Sleep _ :: evs' => S (sleeps evs')
  end.

(** ** Scripted callers: the declarations and library calls of the runs *)

Module ScriptedCallers.

#[local] Existing Instance Scripted.runtime.

(** a label and a workload are known by their href here *)
#[local] Instance declarations : Declarations := {|
  Label := string;
  Label_Href := fun href => href;
  Workload := string;
  Workload_Href := fun href => href;
  CreatedBy := unit;
  UpdatedBy := unit;
  time_Time := Z
|}.

(** payloads are marshaled to a fixed text unless the profile has no name
    or the query asks for a negative number of flows, which stand for the
    values [json.Marshal] refuses; [[]] decodes to the empty slice and other
    bodies are refused *)
#[local] Instance library : Library := {|
  json_Marshal_request := fun r =>
    if TrafficAnalysisRequest.MaxResults r <? 0
    then inl (other_error "json: error calling MarshalJSON for type time.Time")
    else inr "{}";
  json_Marshal_profile := fun p =>
    if (PairingProfile.Name p =? "")%string
    then inl (other_error "json: unsupported value")
    else inr ("{" ++ Scripted.js "name" ++ ":" ++ Scripted.js (PairingProfile.Name p) ++ "}");
  json_Unmarshal_flows := fun data v =>
    if (data =? "[]")%string then (Some [], None)
    else (v, Some (other_error "unexpected end of JSON input"));
  json_Unmarshal_profiles := fun data v =>
    if (data =? "[]")%string then (Some [], None)
    else (v, Some (other_error "unexpected end of JSON input"));
  URL_String := fun raw => raw;
  Error_text := fun e =>
    match e with
    | url_Error op u msg => op ++ " " ++ u ++ ": " ++ msg
    | other_error msg => msg
    | _ => "error"
    end
|}.

(** a PCE whose host name holds a control byte: its URLs do not parse *)
Definition bad_pce : PCE :=
  {| FQDN := String (ascii_of_nat 127) "pce.example.com"; Port := 8443; Org := 1;
     User := "api_1"; Key := "secret"; DisableTLSChecking := false |}.

Definition profile (name href : string) : PairingProfile.t :=
  {| PairingProfile.AllowedUsesPerKey := ""; PairingProfile.AppLabelLock := false;
     PairingProfile.CreatedAt := ""; PairingProfile.CreatedBy := None;
     PairingProfile.Description := ""; PairingProfile.Enabled := true;
     PairingProfile.EnvLabelLock := false; PairingProfile.ExternalDataReference := "";
     PairingProfile.ExternalDataSet := ""; PairingProfile.Href := href;
     PairingProfile.IsDefault := false; PairingProfile.KeyLifespan := "";
     PairingProfile.Labels := None; PairingProfile.LastPairingAt := "";
     PairingProfile.LocLabelLock := false; PairingProfile.LogTraffic := false;
     PairingProfile.LogTrafficLock := false; PairingProfile.Mode := "";
     PairingProfile.ModeLock := false; PairingProfile.Name := name;
     PairingProfile.RoleLabelLock := false; PairingProfile.TotalUseCount := 0;
     PairingProfile.UpdatedAt := ""; PairingProfile.UpdatedBy := None;
     PairingProfile.VisibilityLevel := ""; PairingProfile.VisibilityLevelLock := false |}.

(** a query with the given endpoint lists and nothing else *)
Definition endpoints_query (si se di de : Slice string) (flows : Z) : TrafficQuery :=
  {| SourcesInclude := si; SourcesExclude := se;
     DestinationsInclude := di; DestinationsExclude := de;
     PortProtoInclude := None; PortProtoExclude := None;
     PortRangeInclude := None; PortRangeExclude := None;
     ProcessInclude := None; WindowsServiceInclude := None;
     ProcessExclude := None; WindowsServiceExclude := None;
     StartTime := 0; EndTime := 0; PolicyStatuses := None; MaxFLows := flows |}.

(** the answer to a submission that fails on the server and still names a
    job and a wait *)
Definition server_error : http_Response :=
  Scripted.reply 500 (<["Location" := ["/jobs/123"]]> (<["Retry-After" := ["0"]]> ∅))
    "internal error".

(** what [url.Parse] makes of the URLs of the runs *)
Definition at_path (path : string) : url.URL :=
  {| url.Scheme := "https"; url.Host := "pce.example.com:8443"; url.Path := path |}.

End ScriptedCallers.

(** ** A job that never finishes

    A server that accepts the submission and then answers every job-status
    request with a pending job. *)
Module Pending.

Definition RoundTrip (c : http.Client) (req : http.Request) (w : nat)
  : (error + http_Response) * nat :=
  if http.skips_verification c
  then (inr (Scripted.reply 200 ∅ Scripted.body_pending), S w)
  else (inr Scripted.accepted, S w).

#[local] Instance runtime : Runtime := {|
  World := nat;
  unicode_ToUpper := fun s => s;
  url_Parse := Scripted.Parse;
  http_RoundTrip := RoundTrip;
  json_Unmarshal := Scripted.Unmarshal;
  time_passes := fun _ w => w
|}.

(** the world before the first request *)
Definition start : state := {| world := 0%nat; trace := [] |}.

End Pending.

(** * Properties *)

(** ** The library models on small inputs *)

Example Itoa_404 : strconv_Itoa 404 = "404".
Proof. reflexivity. Qed.

Example Itoa_negative : strconv_Itoa (-17) = "-17".
Proof. reflexivity. Qed.

Example Itoa_max : strconv_Itoa 9223372036854775807 = "9223372036854775807".
Proof. reflexivity. Qed.

Example Atoi_0 : strconv_Atoi "0" = inr 0.
Proof. reflexivity. Qed.

Example Atoi_signed : strconv_Atoi "+120" = inr 120.
Proof. reflexivity. Qed.

Example Atoi_empty : strconv_Atoi "" = inl (NumError "Atoi" "" ErrSyntax).
Proof. reflexivity. Qed.

Example Atoi_date :
  strconv_Atoi "Fri, 31 Dec 1999 23:59:59 GMT"
  = inl (NumError "Atoi" "Fri, 31 Dec 1999 23:59:59 GMT" ErrSyntax).
Proof. reflexivity. Qed.

Example Atoi_out_of_range :
  strconv_Atoi "9223372036854775808" = inl (NumError "Atoi" "9223372036854775808" ErrRange).
Proof. reflexivity. Qed.

Example Atoi_least : strconv_Atoi "-9223372036854775808" = inr (-9223372036854775808).
Proof. reflexivity. Qed.

Example Replace_all : strings_Replace "a-b-c" "-" "+" (-1) = "a+b+c".
Proof. reflexivity. Qed.

Example Replace_one : strings_Replace "a-b-c" "-" "+" 1 = "a+b-c".
Proof. reflexivity. Qed.

Example Replace_no_overlap : strings_Replace "aaa" "aa" "b" (-1) = "ba".
Proof. reflexivity. Qed.

Example HasSuffix_slash : strings_HasSuffix "host/" "/" = true.
Proof. reflexivity. Qed.

Example int64_wraps : int64 (9223372037 * time_Second) = -9223372036709551616.
Proof. reflexivity. Qed.

Example pceSanitization_both : pceSanitization "https://host.example.com/" = "host.example.com".
Proof. reflexivity. Qed.

Example pceSanitization_one_slash : pceSanitization "host.example.com//" = "host.example.com/".
Proof. reflexivity. Qed.

Example pceSanitization_upper_scheme : pceSanitization "HTTPS://host" = "HTTPS://host".
Proof. reflexivity. Qed.

Example pceSanitization_port : pceSanitization "https://host:8443" = "host:8443".
Proof. reflexivity. Qed.

(** ** Strings *)

Section StringFacts.

Lemma app_nil (b : string) : "" ++ b = b.
Proof. reflexivity. Qed.

Lemma app_cons (c : ascii) (a b : string) : String c a ++ b = String c (a ++ b).
Proof. reflexivity. Qed.

Lemma len_app (a b : string) : len (a ++ b) = (len a + len b)%nat.
Proof.
  unfold len. induction a as [|c a IH]; [reflexivity |].
  rewrite app_cons. simpl. now rewrite IH.
Qed.

Lemma app_assoc_s (a b c : string) : (a ++ b) ++ c = a ++ (b ++ c).
Proof. induction a as [|x a IH]; [reflexivity | now rewrite !app_cons, IH]. Qed.

Lemma substring_0_app (a b : string) : substring 0 (String.length a) (a ++ b) = a.
Proof.
  induction a as [|c a IH].
  - rewrite app_nil. destruct b; reflexivity.
  - rewrite app_cons. simpl. now rewrite IH.
Qed.

Lemma substring_skip_app (a b : string) (m : nat) :
  substring (String.length a) m (a ++ b) = substring 0 m b.
Proof. induction a as [|c a IH]; [reflexivity | rewrite app_cons; exact IH]. Qed.

Lemma substring_0_all (s : string) : substring 0 (String.length s) s = s.
Proof. induction s as [|c s IH]; simpl; [reflexivity | now rewrite IH]. Qed.

Lemma substring_split (s : string) (n : nat) :
  (n <= String.length s)%nat ->
  s = substring 0 n s ++ substring n (String.length s - n) s.
Proof.
  revert n. induction s as [|c s IH]; intros n Hn; simpl in *.
  - destruct n; [reflexivity | lia].
  - destruct n as [|n]; simpl.
    + now rewrite substring_0_all.
    + rewrite app_cons. f_equal. apply IH. lia.
Qed.

(** [strings.HasPrefix(s, pre)] holds exactly when [s] is [pre] followed by
    something. *)
Lemma HasPrefix_spec (s pre : string) :
  strings_HasPrefix s pre = true <-> exists t, s = pre ++ t.
Proof.
  unfold strings_HasPrefix, slice, len. rewrite andb_true_iff, Nat.leb_le, String.eqb_eq.
  rewrite Nat.sub_0_r. split.
  - intros [Hl He]. exists (substring (String.length pre) (String.length s - String.length pre) s).
    pose proof (substring_split s _ Hl) as E. now rewrite He in E.
  - intros [t ->]. split.
    + fold (len (pre ++ t)). rewrite len_app. unfold len. lia.
    + apply substring_0_app.
Qed.

(** [strings.HasSuffix(s, suffix)] holds exactly when [s] is something
    followed by [suffix]. *)
Lemma HasSuffix_spec (s suffix : string) :
  strings_HasSuffix s suffix = true <-> exists t, s = t ++ suffix.
Proof.
  unfold strings_HasSuffix, slice, len. rewrite andb_true_iff, Nat.leb_le, String.eqb_eq. split.
  - intros [Hl He]. exists (substring 0 (String.length s - String.length suffix) s).
    pose proof (substring_split s (String.length s - String.length suffix)) as E.
    rewrite He in E. apply E. lia.
  - intros [t ->]. fold (len (t ++ suffix)). rewrite len_app. unfold len. split; [lia |].
    replace (String.length t + String.length suffix - String.length suffix)%nat
      with (String.length t) by lia.
    rewrite substring_skip_app.
    replace (String.length t + String.length suffix - String.length t)%nat
      with (String.length suffix) by lia.
    apply substring_0_all.
Qed.

Lemma slice_init (t suffix : string) :
  slice (t ++ suffix) 0 (len (t ++ suffix) - len suffix) = t.
Proof.
  unfold slice. rewrite len_app, Nat.sub_0_r.
  replace (len t + len suffix - len suffix)%nat with (String.length t) by (unfold len; lia).
  apply substring_0_app.
Qed.

Lemma slice_tail_cons (c : ascii) (s : string) : slice (String c s) 1 (len (String c s)) = s.
Proof. unfold slice, len. simpl. rewrite Nat.sub_0_r. apply substring_0_all. Qed.

End StringFacts.

(** ** [pceSanitization] *)

Section Sanitization.

Lemma replace_from_skip (old new p t : string) (n : Z) :
  replace_from old new n (len p) (p ++ t) = replace_from old new n 0 t.
Proof.
  induction p as [|c p IH]; [reflexivity |].
  rewrite app_cons. simpl. exact IH.
Qed.

Lemma Contains_false_HasPrefix (s sub : string) :
  strings_Contains s sub = false -> strings_HasPrefix s sub = false.
Proof. destruct s; simpl; intros H; now apply orb_false_elim in H as [H _]. Qed.

(** Nothing to replace: the scan hands the string back. *)
Lemma replace_from_absent (old new s : string) (n : Z) :
  strings_Contains s old = false -> replace_from old new n 0 s = s.
Proof.
  induction s as [|c s IH]; intros H; [reflexivity |].
  pose proof (Contains_false_HasPrefix _ _ H) as Hp.
  simpl in H. apply orb_false_elim in H as [_ H].
  simpl. rewrite Hp. destruct (n =? 0); [reflexivity |]. now rewrite IH.
Qed.

Lemma HasPrefix_app (a b sub : string) :
  strings_HasPrefix a sub = true -> strings_HasPrefix (a ++ b) sub = true.
Proof.
  intros [t ->]%HasPrefix_spec. apply HasPrefix_spec. exists (t ++ b). apply app_assoc_s.
Qed.

Lemma Contains_app_l (a b sub : string) :
  strings_Contains (a ++ b) sub = false -> strings_Contains a sub = false.
Proof.
  induction a as [|c a IH]; intros H.
  - pose proof (Contains_false_HasPrefix _ _ H) as Hp. simpl.
    destruct (strings_HasPrefix "" sub) eqn:E; [| reflexivity].
    apply (HasPrefix_app _ b) in E. congruence.
  - pose proof (Contains_false_HasPrefix _ _ H) as Hp.
    rewrite app_cons in H. simpl in H. apply orb_false_elim in H as [_ H].
    simpl. rewrite (IH H), orb_false_r.
    destruct (strings_HasPrefix (String c a) sub) eqn:E; [| reflexivity].
    apply (HasPrefix_app _ b) in E. congruence.
Qed.

Lemma Contains_app_r (a b sub : string) :
  strings_Contains (a ++ b) sub = false -> strings_Contains b sub = false.
Proof.
  induction a as [|c a IH]; intros H; [exact H |].
  rewrite app_cons in H. simpl in H. apply orb_false_elim in H as [_ H]. auto.
Qed.

(** Replacing every [old] by nothing in [old ++ t], when [t] holds no
    further [old], leaves [t]. *)
Lemma Replace_leading (c : ascii) (old' t : string) :
  strings_Contains t (String c old') = false ->
  strings_Replace (String c old' ++ t) (String c old') "" (-1) = t.
Proof.
  intros H. unfold strings_Replace.
  change ((String c old' =? "")%string) with false. change (-1 =? 0) with false.
  rewrite app_cons. simpl orb. cbv iota.
  unfold replace_from; fold replace_from.
  change (-1 =? 0) with false. cbv iota.
  rewrite <- app_cons.
  rewrite (proj2 (HasPrefix_spec _ _) (ex_intro _ t eq_refl)).
  rewrite app_nil.
  replace (len (String c old') - 1)%nat with (len old') by (unfold len; simpl; lia).
  rewrite replace_from_skip. now apply replace_from_absent.
Qed.

Lemma pceSanitization_unfold (s : string) :
  pceSanitization s =
  if strings_HasPrefix (trim_slash s) "https://"
  then strings_Replace (trim_slash s) "https://" "" (-1)
  else trim_slash s.
Proof. reflexivity. Qed.

Lemma trim_slash_app (u : string) : trim_slash (u ++ "/") = u.
Proof.
  unfold trim_slash. rewrite (proj2 (HasSuffix_spec _ _) (ex_intro _ u eq_refl)).
  apply (slice_init u "/").
Qed.

(** A string with no slash at its end and no [https://] at its start is
    left as it is. *)
Lemma pceSanitization_fixed (t : string) :
  strings_HasSuffix t "/" = false -> strings_HasPrefix t "https://" = false ->
  pceSanitization t = t.
Proof.
  intros Hs Hp. rewrite pceSanitization_unfold. unfold trim_slash. now rewrite Hs, Hp.
Qed.

(** With at most one slash at the end, none is left after the first step;
    and what held no [https://] past the first byte still holds none. *)
Lemma trim_slash_clean (s : string) :
  strings_HasSuffix s "//" = false ->
  strings_Contains (slice s 1 (len s)) "https://" = false ->
  strings_HasSuffix (trim_slash s) "/" = false
  /\ strings_Contains (slice (trim_slash s) 1 (len (trim_slash s))) "https://" = false.
Proof.
  intros H2 Hc. destruct (strings_HasSuffix s "/") eqn:E.
  - apply HasSuffix_spec in E as [u ->]. rewrite trim_slash_app. split.
    + destruct (strings_HasSuffix u "/") eqn:E'; [| reflexivity].
      apply HasSuffix_spec in E' as [v ->].
      rewrite app_assoc_s in H2.
      rewrite (proj2 (HasSuffix_spec _ _) (ex_intro _ v eq_refl)) in H2. discriminate.
    + destruct u as [|c u]; [reflexivity |].
      rewrite slice_tail_cons. rewrite app_cons, slice_tail_cons in Hc.
      now apply Contains_app_l in Hc.
  - unfold trim_slash. rewrite E. auto.
Qed.

Lemma slice_drop_app (a b : string) : slice (a ++ b) (len a) (len (a ++ b)) = b.
Proof.
  unfold slice. rewrite len_app.
  replace (len a + len b - len a)%nat with (String.length b) by (unfold len; lia).
  unfold len. rewrite substring_skip_app. apply substring_0_all.
Qed.

(** Where [https://] does not come again after the first byte, the code
    does what the specification asks: one slash off the end, the scheme
    prefix off the start, nothing else. *)
Lemma pceSanitization_as_specified (s : string) :
  strings_Contains (slice (trim_slash s) 1 (len (trim_slash s))) "https://" = false ->
  pceSanitization s = strip_scheme (trim_slash s).
Proof.
  intros Hc. rewrite pceSanitization_unfold. unfold strip_scheme.
  destruct (strings_HasPrefix (trim_slash s) "https://") eqn:Hp; [| reflexivity].
  apply HasPrefix_spec in Hp as [t Ht]. rewrite Ht in *.
  rewrite (slice_drop_app "https://" t).
  change ("https://" ++ t) with (String "h" ("ttps://" ++ t)) in Hc.
  rewrite slice_tail_cons in Hc. apply Contains_app_r in Hc.
  now apply (Replace_leading "h" "ttps://").
Qed.

End Sanitization.

(** C9 (amended). Sanitising twice gives what sanitising once gives for
    every host string that does not end in two slashes and holds no
    [https://] past its first byte; and the two examples of the
    specification evaluate as stated. *)
Theorem pceSanitization_idempotent :
  (forall s : string,
      strings_HasSuffix s "//" = false ->
      strings_Contains (slice s 1 (len s)) "https://" = false ->
      pceSanitization (pceSanitization s) = pceSanitization s)
  /\ pceSanitization "https://host.example.com/" = "host.example.com"
  /\ pceSanitization "host.example.com" = "host.example.com".
Proof.
  split; [| split; reflexivity].
  intros s H2 Hc.
  destruct (trim_slash_clean s H2 Hc) as [Hs Hc'].
  rewrite (pceSanitization_unfold s).
  destruct (strings_HasPrefix (trim_slash s) "https://") eqn:Hp.
  - apply HasPrefix_spec in Hp as [t Ht]. rewrite Ht in *.
    change ("https://" ++ t) with (String "h" ("ttps://" ++ t)) in Hc'.
    rewrite slice_tail_cons in Hc'. apply Contains_app_r in Hc'.
    rewrite (Replace_leading "h" "ttps://" t Hc').
    apply pceSanitization_fixed.
    + destruct (strings_HasSuffix t "/") eqn:E; [| reflexivity].
      apply HasSuffix_spec in E as [v ->].
      rewrite <- app_assoc_s in Hs.
      rewrite (proj2 (HasSuffix_spec _ _) (ex_intro _ ("https://" ++ v) eq_refl)) in Hs.
      discriminate.
    + now apply Contains_false_HasPrefix.
  - now apply pceSanitization_fixed.
Qed.

Lemma pceSanitization_idempotent_witness :
  pceSanitization (pceSanitization "https://host.example.com/")
  = pceSanitization "https://host.example.com/".
Proof. apply (proj1 pceSanitization_idempotent); reflexivity. Defined.

(** C9 as stated fails: a host that ends in two slashes loses one slash
    per pass. *)
Lemma pceSanitization_not_idempotent :
  ~ (forall s : string, pceSanitization (pceSanitization s) = pceSanitization s).
Proof. intros H. specialize (H "host.example.com//"). vm_compute in H. discriminate. Qed.

(** C8. On a host string that [https://] opens and that holds [https://]
    once more further on, the second occurrence is removed too, where the
    specification strips the scheme prefix and edits nothing past it. *)
Theorem pceSanitization_interior_edit :
  pceSanitization "https://pce.example.com/?next=https://sso.example.com"
  = "pce.example.com/?next=sso.example.com"
  /\ strip_scheme (trim_slash "https://pce.example.com/?next=https://sso.example.com")
     = "pce.example.com/?next=https://sso.example.com".
Proof. split; reflexivity. Qed.

(** ** [strconv.Itoa] and the leading digit *)

Section Numerals.

Lemma slice_head (c : ascii) (rest : string) : slice (String c rest) 0 1 = String c "".
Proof. unfold slice. simpl. now destruct rest. Qed.

Lemma digit_is_2 (d : Z) : 0 <= d <= 9 -> (digit d = "2"%char <-> d = 2).
Proof.
  intros Hd.
  assert (d = 0 \/ d = 1 \/ d = 2 \/ d = 3 \/ d = 4 \/ d = 5 \/ d = 6 \/ d = 7 \/ d = 8 \/ d = 9)
    as Hc by lia.
  repeat (destruct Hc as [-> | Hc]); try subst d; split; intros E;
    solve [reflexivity | discriminate E | vm_compute in E; discriminate E].
Qed.

(** The first byte that the digit loop writes is the leading digit. *)
Lemma format_digits_head (fuel : nat) :
  forall n acc, 0 <= n < 2 ^ Z.of_nat (S fuel) ->
  exists d rest,
    0 <= d <= 9 /\ (1 <= n -> 1 <= d) /\ leading_digit n d
    /\ format_digits (S fuel) n acc = String (digit d) rest.
Proof.
  induction fuel as [|fuel IH]; intros n acc Hn;
    change (format_digits (S ?f) n acc)
      with (if n <? 10 then String (digit n) acc
            else format_digits f (n / 10) (String (digit (n mod 10)) acc));
    destruct (n <? 10) eqn:E.
  - apply Z.ltb_lt in E. exists n, acc. repeat split; try lia.
    exists 0. simpl. lia.
  - apply Z.ltb_ge in E. change (2 ^ Z.of_nat 1) with 2 in Hn. lia.
  - apply Z.ltb_lt in E. exists n, acc. repeat split; try lia.
    exists 0. simpl. lia.
  - apply Z.ltb_ge in E.
    assert (Hq : 0 <= n / 10 < 2 ^ Z.of_nat (S fuel)).
    { split; [apply Z.div_pos; lia |].
      apply Z.div_lt_upper_bound; [lia |].
      rewrite (Nat2Z.inj_succ (S fuel)), Z.pow_succ_r in Hn by lia. lia. }
    destruct (IH (n / 10) (String (digit (n mod 10)) acc) Hq)
      as (d & rest & Hd & Hd1 & (k & Hk & Hlo & Hhi) & Hf).
    exists d, rest. repeat split; try lia.
    + intros _. apply Hd1. apply Z.div_le_lower_bound; lia.
    + exists (k + 1). rewrite Z.pow_add_r, Z.pow_1_r by lia.
      pose proof (Z.div_mod n 10 ltac:(lia)) as Hdm.
      pose proof (Z.mod_pos_bound n 10 ltac:(lia)) as Hm.
      split; [lia |]. split; nia.
    + exact Hf.
Qed.

Lemma digits_bound_enough (n : Z) : 0 <= n -> n < 2 ^ Z.of_nat (digits_bound n).
Proof.
  intros Hn. unfold digits_bound.
  rewrite Nat2Z.inj_succ, Z2Nat.id by apply Z.log2_nonneg.
  destruct (Z.eq_dec n 0) as [-> | Hz]; [reflexivity |].
  apply Z.log2_spec. lia.
Qed.

Lemma pow10_pos (k : Z) : 0 <= k -> 0 < 10 ^ k.
Proof. intros. apply Z.pow_pos_nonneg; lia. Qed.

(** A positive number has one leading digit. *)
Lemma leading_digit_unique (n d d' : Z) :
  1 <= d <= 9 -> 1 <= d' <= 9 -> leading_digit n d -> leading_digit n d' -> d = d'.
Proof.
  intros Hd Hd' (k & Hk & Hlo & Hhi) (k' & Hk' & Hlo' & Hhi').
  pose proof (pow10_pos k Hk) as Pk. pose proof (pow10_pos k' Hk') as Pk'.
  assert (k = k') as <-.
  { destruct (Z.lt_trichotomy k k') as [L | [E | L]]; [exfalso | exact E | exfalso].
    - assert (10 ^ (k + 1) <= 10 ^ k') by (apply Z.pow_le_mono_r; lia).
      rewrite Z.pow_add_r, Z.pow_1_r in * by lia. nia.
    - assert (10 ^ (k' + 1) <= 10 ^ k) by (apply Z.pow_le_mono_r; lia).
      rewrite Z.pow_add_r, Z.pow_1_r in * by lia. nia. }
  nia.
Qed.

(** Line 136 compares the first byte of the numeral with [2]: that is the
    test for a leading decimal digit [2]. *)
Lemma Itoa_leading_2 (n : Z) :
  (slice (strconv_Itoa n) 0 1 =? "2")%string = true <-> leading_digit n 2.
Proof.
  rewrite String.eqb_eq. unfold strconv_Itoa. destruct (n <? 0) eqn:E.
  - apply Z.ltb_lt in E. rewrite slice_head. split; [discriminate |].
    intros (k & Hk & Hlo & _). pose proof (pow10_pos k Hk). lia.
  - apply Z.ltb_ge in E.
    destruct (format_digits_head (Z.to_nat (Z.log2 n)) n "" (conj E (digits_bound_enough n E)))
      as (d & rest & Hd & Hd1 & Hl & Hf).
    fold (digits_bound n) in Hf.
    rewrite Hf, slice_head. split.
    + intros Heq. injection Heq as Heq. apply (digit_is_2 d Hd) in Heq. now subst d.
    + intros H2.
      assert (1 <= n) as Hn1.
      { destruct H2 as (k & Hk & Hlo & _). pose proof (pow10_pos k Hk). lia. }
      rewrite (leading_digit_unique n d 2); [reflexivity | lia | lia | exact Hl | exact H2].
Qed.

End Numerals.

(** ** The effects of a call *)

Section Transport.

Context `{Runtime}.

Lemma bind_Val {A B} (m : M A) (k : A -> M B) st a st' :
  m st = (Val a, st') -> bind m k st = k a st'.
Proof. unfold bind. now intros ->. Qed.

Lemma bind_Err {A B} (m : M A) (k : A -> M B) st e st' :
  m st = (Err e, st') -> bind m k st = (Err e, st').
Proof. unfold bind. now intros ->. Qed.

Lemma bind_Crash {A B} (m : M A) (k : A -> M B) st st' :
  m st = (Crash, st') -> bind m k st = (Crash, st').
Proof. unfold bind. now intros ->. Qed.

Lemma bind_Spin {A B} (m : M A) (k : A -> M B) st st' :
  m st = (Spin, st') -> bind m k st = (Spin, st').
Proof. unfold bind. now intros ->. Qed.

Lemma client_Do_run client req st answer w :
  http_RoundTrip client req (world st) = (answer, w) ->
  client_Do client req st =
  (match answer with inl e => Err e | inr resp => Val resp end, after_Do st client req answer w).
Proof. unfold client_Do, after_Do. intros ->. now destruct answer. Qed.

(** *** [http.NewRequest] succeeds on a method the API accepts and a URL
    that parses *)

Lemma action_accepted (a : string) :
  action_refused a = false -> In a actions.
Proof.
  unfold action_refused, actions. intros Hr. simpl.
  destruct (a =? "GET")%string eqn:E1; [apply String.eqb_eq in E1; auto |].
  destruct (a =? "POST")%string eqn:E2; [apply String.eqb_eq in E2; auto |].
  destruct (a =? "PUT")%string eqn:E3; [apply String.eqb_eq in E3; auto |].
  destruct (a =? "DELETE")%string eqn:E4; [apply String.eqb_eq in E4; auto 6 |].
  discriminate.
Qed.

Lemma action_refused_actions (a : string) : In a actions -> action_refused a = false.
Proof. intros [<- | [<- | [<- | [<- | []]]]]; reflexivity. Qed.

Lemma NewRequest_ok (method url : string) (body : option string) (u : url.URL) :
  In method actions -> url_Parse url = inr u ->
  http_NewRequest method url body = inr (bare_request method url body).
Proof.
  intros Hm Hu. unfold http_NewRequest. rewrite Hu.
  destruct Hm as [<- | [<- | [<- | [<- | []]]]]; reflexivity.
Qed.

Lemma NewRequest_fail (method url : string) (body : option string) (e : error) :
  In method actions -> url_Parse url = inl e ->
  http_NewRequest method url body = inl e.
Proof.
  intros Hm Hu. unfold http_NewRequest. rewrite Hu.
  destruct Hm as [<- | [<- | [<- | [<- | []]]]]; reflexivity.
Qed.

Lemma GET_action : In "GET" actions.
Proof. simpl; auto. Qed.

(** *** One call of [polling] *)

(** The request cannot be built: nothing happens. *)
Lemma polling_bad_url baseURL pce origResp st e :
  url_Parse (job_url baseURL origResp) = inl e ->
  polling baseURL pce origResp st = (Err e, st).
Proof.
  intros Hu. unfold polling.
  fold (job_url baseURL origResp).
  rewrite (NewRequest_fail _ _ _ _ GET_action Hu). reflexivity.
Qed.

(** No usable [Retry-After]: nothing happens. *)
Lemma polling_no_wait baseURL pce origResp st u e :
  url_Parse (job_url baseURL origResp) = inr u ->
  retry_after origResp = inl e ->
  polling baseURL pce origResp st = (Err e, st).
Proof.
  intros Hu Hw. unfold polling.
  fold (job_url baseURL origResp).
  rewrite (NewRequest_ok _ _ _ _ GET_action Hu).
  unfold retry_after in Hw. unfold bind at 1. simpl. rewrite Hw. reflexivity.
Qed.

(** Otherwise [polling] sleeps, then sends the job-status request. *)
Lemma polling_run baseURL pce origResp st u wait answer w :
  url_Parse (job_url baseURL origResp) = inr u ->
  retry_after origResp = inr wait ->
  let d := int64 (wait * time_Second) in
  http_RoundTrip polling_client (poll_request baseURL pce origResp)
    (time_passes d (world st)) = (answer, w) ->
  let st' := {| world := w; trace := trace st ++ poll_cycle baseURL pce origResp d answer |} in
  polling baseURL pce origResp st =
  match answer with
  | inl e => (Err e, st')
  | inr pollResp =>
      match snd (resp_Body pollResp) with
      | Some e => (Err e, st')
      | None => (Val (fst (json_Unmarshal (fst (resp_Body pollResp)) zero_asyncResults)), st')
      end
  end.
Proof.
  intros Hu Hw d Hrt st'. unfold polling.
  fold (job_url baseURL origResp).
  rewrite (NewRequest_ok _ _ _ _ GET_action Hu).
  unfold retry_after in Hw. unfold bind at 1. simpl. rewrite Hw.
  unfold bind at 1. simpl. unfold bind at 1. unfold time_Sleep.
  fold d. unfold bind at 1.
  fold (bare_request "GET" (job_url baseURL origResp) None).
  change (http.SetHeader
            (http.SetBasicAuth (bare_request "GET" (job_url baseURL origResp) None)
               (User pce) (Key pce))
            "Content-Type" "application/json")
    with (poll_request baseURL pce origResp).
  erewrite client_Do_run by (simpl; exact Hrt).
  unfold after_Do, poll_cycle. simpl trace. rewrite <- app_assoc. simpl app.
  fold st'.
  destruct answer as [e | pollResp]; [reflexivity |].
  unfold try_read, ioutil_ReadAll, ret.
  destruct (snd (resp_Body pollResp)); reflexivity.
Qed.

Lemma poll_wait_eq origResp wait :
  retry_after origResp = inr wait -> poll_wait origResp = int64 (wait * time_Second).
Proof. unfold poll_wait. now intros ->. Qed.

(** A call of [polling] leaves the trace as it is, or adds one cycle. *)
Lemma polling_trace baseURL pce origResp st :
  trace (snd (polling baseURL pce origResp st)) = trace st
  \/ exists answer,
      trace (snd (polling baseURL pce origResp st)) =
      (trace st ++ poll_cycle baseURL pce origResp (poll_wait origResp) answer)%list.
Proof.
  destruct (url_Parse (job_url baseURL origResp)) as [e | u] eqn:Hu.
  - left. now rewrite (polling_bad_url _ _ _ _ _ Hu).
  - destruct (retry_after origResp) as [e | wait] eqn:Hw.
    + left. now rewrite (polling_no_wait _ _ _ _ _ _ Hu Hw).
    + destruct (http_RoundTrip polling_client (poll_request baseURL pce origResp)
                  (time_passes (int64 (wait * time_Second)) (world st))) as [answer w] eqn:Hrt.
      right. exists answer.
      rewrite (polling_run _ _ _ _ _ _ _ _ Hu Hw Hrt), (poll_wait_eq _ _ Hw).
      destruct answer as [e | p]; [reflexivity |].
      destruct (snd (resp_Body p)); reflexivity.
Qed.

(** closes a goal [exists answers, trace _ = trace st ++ flat_map _ answers]
    with the answers given, the trace known from a hypothesis *)
Ltac cycles answers :=
  exists answers; simpl; rewrite ?app_nil_r; solve [assumption | reflexivity].

(** The polling loop adds poll cycles to the trace and nothing else. *)
Lemma poll_loop_trace fuel baseURL pce origResp :
  forall results st,
  exists answers,
    trace (snd (poll_loop fuel baseURL pce origResp results st)) =
    (trace st ++ flat_map (poll_cycle baseURL pce origResp (poll_wait origResp)) answers)%list.
Proof.
  induction fuel as [|fuel IH]; intros results st; simpl.
  - destruct (Status results =? "done")%string; cycles (@nil (error + http_Response)).
  - destruct (Status results =? "done")%string; [cycles (@nil (error + http_Response)) |].
    unfold bind.
    destruct (polling_trace baseURL pce origResp st) as [Ht | [answer Ht]];
      destruct (polling baseURL pce origResp st) as [[r | e | |] st1]; simpl in Ht;
      try (cycles (@nil (error + http_Response)));
      try (cycles [answer]).
    + destruct (IH r st1) as [answers Ha]. exists answers. now rewrite Ha, Ht.
    + destruct (IH r st1) as [answers Ha]. exists (answer :: answers).
      rewrite Ha, Ht. simpl flat_map. now rewrite <- app_assoc.
Qed.

(** *** The result fetch *)

Lemma fetch_result_bad_url baseURL pce body results st e :
  url_Parse (baseURL ++ Href_ (Result results)) = inl e ->
  fetch_result baseURL pce (Some body) (apicall_client pce) results st = (Err e, st).
Proof.
  intros Hu. unfold fetch_result.
  now rewrite (NewRequest_fail _ _ _ _ GET_action Hu).
Qed.

Lemma fetch_result_run baseURL pce body results st u answer w :
  url_Parse (baseURL ++ Href_ (Result results)) = inr u ->
  http_RoundTrip (apicall_client pce) (final_request baseURL pce body results) (world st)
  = (answer, w) ->
  fetch_result baseURL pce (Some body) (apicall_client pce) results st =
  (match answer with inl e => Err e | inr resp => Val resp end,
   after_Do st (apicall_client pce) (final_request baseURL pce body results) answer w).
Proof.
  intros Hu Hrt. unfold fetch_result.
  rewrite (NewRequest_ok _ _ _ _ GET_action Hu).
  unfold bind, try. now apply client_Do_run.
Qed.

(** The result fetch adds at most its own exchange to the trace. *)
Lemma fetch_result_trace baseURL pce body results st :
  trace (snd (fetch_result baseURL pce (Some body) (apicall_client pce) results st)) = trace st
  \/ exists answer,
      trace (snd (fetch_result baseURL pce (Some body) (apicall_client pce) results st)) =
      (trace st ++ [Do (apicall_client pce) (final_request baseURL pce body results) answer])%list.
Proof.
  destruct (url_Parse (baseURL ++ Href_ (Result results))) as [e | u] eqn:Hu.
  - left. now rewrite (fetch_result_bad_url _ _ _ _ _ _ Hu).
  - destruct (http_RoundTrip (apicall_client pce) (final_request baseURL pce body results)
                (world st)) as [answer w] eqn:Hrt.
    right. exists answer. now rewrite (fetch_result_run _ _ _ _ _ _ _ _ Hu Hrt).
Qed.

(** *** [send_request], step by step *)

Lemma send_request_refused fuel httpAction apiURL pce body async st :
  action_refused (strings_ToUpper httpAction) = true ->
  send_request fuel httpAction apiURL pce body async st = (Err invalid_action, st).
Proof. intros Hr. unfold send_request. now rewrite Hr. Qed.

Lemma send_request_bad_url fuel httpAction apiURL pce body async st e :
  action_refused (strings_ToUpper httpAction) = false ->
  url_Parse apiURL = inl e ->
  send_request fuel httpAction apiURL pce body async st = (Crash, st).
Proof. intros Hr Hu. unfold send_request. rewrite Hr. unfold bind, deref. now rewrite Hu. Qed.

Lemma send_request_sent fuel httpAction apiURL pce body async st u answer w :
  action_refused (strings_ToUpper httpAction) = false ->
  url_Parse apiURL = inr u ->
  http_RoundTrip (apicall_client pce) (first_request httpAction apiURL pce body async) (world st)
  = (answer, w) ->
  let st1 := after_Do st (apicall_client pce) (first_request httpAction apiURL pce body async) answer w in
  send_request fuel httpAction apiURL pce body async st =
  match answer with
  | inl e => (Err e, st1)
  | inr resp =>
      if async
      then bind (poll_loop fuel (base_url u) pce resp zero_asyncResults)
             (fetch_result (base_url u) pce (Some body) (apicall_client pce)) st1
      else (Val resp, st1)
  end.
Proof.
  intros Hr Hu Hrt st1. unfold send_request. rewrite Hr.
  unfold bind at 1. unfold deref. rewrite Hu.
  rewrite (NewRequest_ok _ _ _ _ (action_accepted _ Hr) Hu).
  unfold bind at 1. unfold try.
  unfold bind at 1.
  set (req := bare_request (strings_ToUpper httpAction) apiURL (Some body)).
  change (http.SetHeader (http.SetBasicAuth req (User pce) (Key pce))
            "Content-Type" "application/json")
    with (authorised req pce).
  change (if async then http.SetHeader (authorised req pce) "Prefer" "respond-async"
          else authorised req pce)
    with (first_request httpAction apiURL pce body async).
  rewrite (client_Do_run _ _ _ _ _ Hrt). fold st1.
  destruct answer as [e | resp]; [reflexivity |].
  destruct async; reflexivity.
Qed.

(** *** From [send_request] to [apicall] *)

Lemma apicall_Err fuel httpAction apiURL pce body async st e st' :
  send_request fuel httpAction apiURL pce body async st = (Err e, st') ->
  apicall fuel httpAction apiURL pce body async st = (Returns zero_APIResponse (Some e), st').
Proof. intros Hs. unfold apicall, apicall_steps. now rewrite (bind_Err _ _ _ _ _ Hs). Qed.

Lemma apicall_Crash fuel httpAction apiURL pce body async st st' :
  send_request fuel httpAction apiURL pce body async st = (Crash, st') ->
  apicall fuel httpAction apiURL pce body async st = (Panics, st').
Proof. intros Hs. unfold apicall, apicall_steps. now rewrite (bind_Crash _ _ _ _ Hs). Qed.

Lemma apicall_Spin fuel httpAction apiURL pce body async st st' :
  send_request fuel httpAction apiURL pce body async st = (Spin, st') ->
  apicall fuel httpAction apiURL pce body async st = (Unfinished, st').
Proof. intros Hs. unfold apicall, apicall_steps. now rewrite (bind_Spin _ _ _ _ Hs). Qed.

Lemma apicall_Val fuel httpAction apiURL pce body async st resp st' :
  send_request fuel httpAction apiURL pce body async st = (Val resp, st') ->
  apicall fuel httpAction apiURL pce body async st =
  match snd (resp_Body resp) with
  | Some e => (Returns zero_APIResponse (Some e), st')
  | None =>
      let response := filled resp (fst (resp_Body resp)) in
      if (slice (strconv_Itoa (resp_StatusCode resp)) 0 1 =? "2")%string
      then (Returns response None, st')
      else (Returns response (Some (status_error (resp_StatusCode resp))), st')
  end.
Proof.
  intros Hs. unfold apicall, apicall_steps. rewrite (bind_Val _ _ _ _ _ Hs).
  unfold process_response, bind, try_read, ioutil_ReadAll.
  destruct (snd (resp_Body resp)); [reflexivity |].
  destruct (slice (strconv_Itoa (resp_StatusCode resp)) 0 1 =? "2")%string; reflexivity.
Qed.

(** [apicall] leaves the state that [send_request] leaves. *)
Lemma apicall_state fuel httpAction apiURL pce body async st :
  snd (apicall fuel httpAction apiURL pce body async st)
  = snd (send_request fuel httpAction apiURL pce body async st).
Proof.
  destruct (send_request fuel httpAction apiURL pce body async st) as [[resp | e | |] st'] eqn:Hs.
  - rewrite (apicall_Val _ _ _ _ _ _ _ _ _ Hs).
    destruct (snd (resp_Body resp)); [reflexivity |]. simpl.
    now destruct (slice (strconv_Itoa (resp_StatusCode resp)) 0 1 =? "2")%string.
  - now rewrite (apicall_Err _ _ _ _ _ _ _ _ _ Hs).
  - now rewrite (apicall_Crash _ _ _ _ _ _ _ _ Hs).
  - now rewrite (apicall_Spin _ _ _ _ _ _ _ _ Hs).
Qed.

(** *** Letter case *)

Lemma byte_inj (x y : ascii) : byte x = byte y -> x = y.
Proof.
  unfold byte. intros E. apply N2Z.inj in E.
  rewrite <- (ascii_N_embedding x), <- (ascii_N_embedding y). now rewrite E.
Qed.

Lemma byte_of_byte (z : Z) : 0 <= z < 256 -> byte (of_byte z) = z.
Proof.
  intros Hz. unfold byte, of_byte. rewrite N_ascii_embedding by lia. lia.
Qed.

Lemma upper_byte_ascii (c : ascii) : (byte (upper_byte c) <? 128) = (byte c <? 128).
Proof.
  unfold upper_byte. destruct ((97 <=? byte c) && (byte c <=? 122)) eqn:E; [| reflexivity].
  apply andb_true_iff in E as [E1 E2]. apply Z.leb_le in E1, E2.
  rewrite byte_of_byte by lia.
  transitivity true; [apply Z.ltb_lt | symmetry; apply Z.ltb_lt]; lia.
Qed.

Lemma same_letters_upper (a : string) :
  forall b, same_letters a b = true -> isASCII b = true ->
  isASCII a = true /\ map_bytes upper_byte a = map_bytes upper_byte b.
Proof.
  induction a as [|x a IH]; intros [|y b] Hs Hb; simpl in *; try discriminate; [auto |].
  apply andb_true_iff in Hs as [Hxy Hs], Hb as [Hy Hb].
  apply Z.eqb_eq, byte_inj in Hxy.
  destruct (IH b Hs Hb) as [Ha ->]. rewrite Hxy, Ha, andb_true_r. split; [| reflexivity].
  now rewrite <- upper_byte_ascii, Hxy, upper_byte_ascii.
Qed.

Lemma upper_same_letters (a : string) :
  forall b, map_bytes upper_byte a = map_bytes upper_byte b -> same_letters a b = true.
Proof.
  induction a as [|x a IH]; intros [|y b] E; simpl in *; try discriminate; [reflexivity |].
  injection E as Ex E. rewrite Ex, Z.eqb_refl. now apply IH.
Qed.

(** On ASCII strings, comparing the upper-case forms is comparing letter
    by letter without regard to case. *)
Lemma equal_fold_ascii (a b : string) :
  isASCII a = true -> isASCII b = true ->
  (equal_fold a b <-> same_letters a b = true).
Proof.
  intros Ha Hb. unfold equal_fold, strings_ToUpper. rewrite Ha, Hb. split.
  - apply upper_same_letters.
  - intros Hs. now apply same_letters_upper.
Qed.

Lemma actions_upper (k : string) :
  In k actions -> isASCII k = true /\ map_bytes upper_byte k = k.
Proof. intros [<- | [<- | [<- | [<- | []]]]]; split; reflexivity. Qed.

Lemma ToUpper_action (k : string) : In k actions -> strings_ToUpper k = k.
Proof.
  intros Hk. destruct (actions_upper k Hk) as [Ha Hu].
  unfold strings_ToUpper. now rewrite Ha.
Qed.

(** In any letter case, an action of the API is put back in upper case. *)
Lemma ToUpper_same_letters (m k : string) :
  In k actions -> same_letters m k = true -> strings_ToUpper m = k.
Proof.
  intros Hk Hs. destruct (actions_upper k Hk) as [Ha Hu].
  destruct (same_letters_upper m k Hs Ha) as [Hm E].
  unfold strings_ToUpper. now rewrite Hm, E.
Qed.

(** C5. An action that is none of GET, POST, PUT, DELETE when compared
    case-insensitively makes the call fail with the invalid-action error,
    the world and the trace untouched (no request, no sleep); on ASCII
    strings that comparison is letter by letter without regard to case; and
    each of the four, in any letter case, passes the validation. *)
Theorem method_validation :
  (forall httpAction : string,
      (forall k, In k actions -> ~ equal_fold httpAction k) ->
      forall fuel apiURL pce body async st,
        apicall fuel httpAction apiURL pce body async st
        = (Returns zero_APIResponse (Some invalid_action), st))
  /\ (forall httpAction : string,
        isASCII httpAction = true ->
        (forall k, In k actions -> same_letters httpAction k = false) ->
        forall fuel apiURL pce body async st,
          apicall fuel httpAction apiURL pce body async st
          = (Returns zero_APIResponse (Some invalid_action), st))
  /\ (forall httpAction k : string,
        In k actions -> same_letters httpAction k = true ->
        strings_ToUpper httpAction = k
        /\ action_refused (strings_ToUpper httpAction) = false).
Proof.
  assert (Hfold : forall httpAction,
             (forall k, In k actions -> ~ equal_fold httpAction k) ->
             action_refused (strings_ToUpper httpAction) = true).
  { intros httpAction Hno.
    destruct (action_refused (strings_ToUpper httpAction)) eqn:Hr; [reflexivity |].
    apply action_accepted in Hr. exfalso. apply (Hno _ Hr).
    unfold equal_fold. now rewrite (ToUpper_action _ Hr). }
  split; [| split].
  - intros httpAction Hno fuel apiURL pce body async st.
    apply apicall_Err, send_request_refused, Hfold, Hno.
  - intros httpAction Ha Hno fuel apiURL pce body async st.
    apply apicall_Err, send_request_refused, Hfold.
    intros k Hk Hf. destruct (actions_upper k Hk) as [Hka _].
    apply (equal_fold_ascii _ _ Ha Hka) in Hf. rewrite (Hno k Hk) in Hf. discriminate.
  - intros httpAction k Hk Hs. rewrite (ToUpper_same_letters _ _ Hk Hs).
    split; [reflexivity | now apply action_refused_actions].
Qed.

(** C10 (amended). On every call whose action passes the validation,
    synchronous or not, a URL that [url.Parse] refuses leaves a nil pointer
    whose [Host] is read: the call panics, with nothing sent. *)
Theorem unparsable_url_panics fuel httpAction apiURL pce body async st e :
  action_refused (strings_ToUpper httpAction) = false ->
  url_Parse apiURL = inl e ->
  apicall fuel httpAction apiURL pce body async st = (Panics, st).
Proof. intros Hr Hu. now apply apicall_Crash, (send_request_bad_url _ _ _ _ _ _ _ e). Qed.

(** C3 (amended). When the call has got its final response and read its
    body without error, the response handed back is filled from that
    response; the error is nil if the decimal numeral of the status code
    starts with [2], and otherwise the error that names the status code. *)
Theorem status_check fuel httpAction apiURL pce body async st resp st' data :
  send_request fuel httpAction apiURL pce body async st = (Val resp, st') ->
  resp_Body resp = (data, None) ->
  let response :=
    {| RespBody := data; StatusCode := resp_StatusCode resp;
       Header := resp_Header resp; Request := resp_Request resp |} in
  (~ leading_digit (resp_StatusCode resp) 2 ->
   apicall fuel httpAction apiURL pce body async st =
   (Returns response
      (Some (errorString ("http status code of " ++ strconv_Itoa (resp_StatusCode resp)))),
    st'))
  /\ (leading_digit (resp_StatusCode resp) 2 ->
      apicall fuel httpAction apiURL pce body async st = (Returns response None, st')).
Proof.
  intros Hs Hb response. rewrite (apicall_Val _ _ _ _ _ _ _ _ _ Hs), Hb. simpl.
  destruct (slice (strconv_Itoa (resp_StatusCode resp)) 0 1 =? "2")%string eqn:E.
  - apply Itoa_leading_2 in E. split; [intros Hn; now destruct Hn | reflexivity].
  - split; [reflexivity |]. intros Hl. apply Itoa_leading_2 in Hl. congruence.
Qed.

(** *** The shape of a call's trace *)

Lemma async_trace fuel baseURL pce body origResp st :
  exists evs,
    trace (snd (bind (poll_loop fuel baseURL pce origResp zero_asyncResults)
                  (fetch_result baseURL pce (Some body) (apicall_client pce)) st))
    = (trace st ++ evs)%list
    /\ async_events baseURL pce body origResp evs.
Proof.
  destruct (poll_loop_trace fuel baseURL pce origResp zero_asyncResults st) as [answers Ha].
  unfold bind.
  destruct (poll_loop fuel baseURL pce origResp zero_asyncResults st) as [[results | e | |] st2];
    simpl in Ha.
  - destruct (fetch_result_trace baseURL pce body results st2) as [Hf | [answer Hf]];
      rewrite Hf, Ha.
    + eexists. split; [reflexivity |]. exists answers, []. rewrite app_nil_r. auto.
    + eexists. rewrite <- app_assoc. split; [reflexivity |].
      exists answers, [Do (apicall_client pce) (final_request baseURL pce body results) answer].
      eauto.
  - eexists. split; [exact Ha |]. exists answers, []. rewrite app_nil_r. auto.
  - eexists. split; [exact Ha |]. exists answers, []. rewrite app_nil_r. auto.
  - eexists. split; [exact Ha |]. exists answers, []. rewrite app_nil_r. auto.
Qed.

(** Every call leaves a trace of this shape: nothing, or the first request
    alone, or the first request, the poll cycles and at most one result
    fetch. *)
Lemma send_request_trace fuel httpAction apiURL pce body async st :
  exists evs,
    trace (snd (send_request fuel httpAction apiURL pce body async st)) = (trace st ++ evs)%list
    /\ (evs = []
        \/ exists u answer rest,
            url_Parse apiURL = inr u
            /\ evs = Do (apicall_client pce) (first_request httpAction apiURL pce body async) answer
                     :: rest
            /\ (rest = []
                \/ exists resp,
                    async = true /\ answer = inr resp
                    /\ async_events (base_url u) pce body resp rest)).
Proof.
  destruct (action_refused (strings_ToUpper httpAction)) eqn:Hr.
  { exists []. rewrite (send_request_refused _ _ _ _ _ _ _ Hr). simpl.
    rewrite app_nil_r. auto. }
  destruct (url_Parse apiURL) as [e | u] eqn:Hu.
  { exists []. rewrite (send_request_bad_url _ _ _ _ _ _ _ _ Hr Hu). simpl.
    rewrite app_nil_r. auto. }
  destruct (http_RoundTrip (apicall_client pce) (first_request httpAction apiURL pce body async)
              (world st)) as [answer w] eqn:Hrt.
  rewrite (send_request_sent _ _ _ _ _ _ _ _ _ _ Hr Hu Hrt).
  destruct answer as [e | resp].
  { eexists. split; [reflexivity |]. right. exists u, (inl e), []. auto. }
  destruct async.
  - destruct (async_trace fuel (base_url u) pce body resp
                (after_Do st (apicall_client pce) (first_request httpAction apiURL pce body true)
                   (inr resp) w)) as (evs & Ht & Hev).
    rewrite Ht. simpl trace. rewrite <- app_assoc. simpl app.
    eexists. split; [reflexivity |]. right. exists u, (inr resp), evs.
    split; [reflexivity |]. split; [reflexivity |]. right. exists resp. auto.
  - eexists. split; [reflexivity |]. right. exists u, (inr resp), []. auto.
Qed.

(** C7. Whatever the call does, the exchanges it makes are: the first
    request, through the client of [apicall]; for an asynchronous call the
    job-status requests, each after its sleep, through the client that
    [polling] builds; and at most one result fetch, through the client of
    [apicall] again. The client of [apicall] skips certificate
    verification exactly when [DisableTLSChecking] is set; the client of
    [polling] always skips it. *)
Theorem tls_policy fuel httpAction apiURL pce body async st :
  (exists evs,
      trace (snd (apicall fuel httpAction apiURL pce body async st)) = (trace st ++ evs)%list
      /\ (evs = []
          \/ exists u answer rest,
              url_Parse apiURL = inr u
              /\ evs = Do (apicall_client pce) (first_request httpAction apiURL pce body async)
                         answer :: rest
              /\ (rest = []
                  \/ exists resp,
                      async = true /\ answer = inr resp
                      /\ async_events (base_url u) pce body resp rest)))
  /\ http.skips_verification (apicall_client pce) = DisableTLSChecking pce
  /\ http.skips_verification polling_client = true.
Proof.
  split; [| split].
  - rewrite apicall_state. apply send_request_trace.
  - unfold apicall_client, http.skips_verification. now destruct (DisableTLSChecking pce).
  - reflexivity.
Qed.

(** *** The polling loop, cycle by cycle *)

Lemma poll_loop_done fuel baseURL pce origResp results st :
  Status results = "done" ->
  poll_loop fuel baseURL pce origResp results st = (Val results, st).
Proof. intros Hd. destruct fuel; simpl; now rewrite Hd. Qed.

Lemma poll_loop_step fuel baseURL pce origResp results st :
  Status results <> "done" ->
  poll_loop (S fuel) baseURL pce origResp results st
  = bind (polling baseURL pce origResp) (poll_loop fuel baseURL pce origResp) st.
Proof.
  intros Hd. simpl. destruct (Status results =? "done")%string eqn:E; [| reflexivity].
  now apply String.eqb_eq in E.
Qed.

(** *** The loop bound of the model

    An answer reached within some bound is the answer within any larger
    one: the bound decides only whether the model gets to the answer. *)

Lemma poll_loop_more_fuel fuel baseURL pce origResp :
  forall results st r st',
    poll_loop fuel baseURL pce origResp results st = (r, st') ->
    r <> Spin ->
    poll_loop (S fuel) baseURL pce origResp results st = (r, st').
Proof.
  induction fuel as [|fuel IH]; intros results st r st' Hrun Hr.
  - destruct (String.eqb_spec (Status results) "done") as [Hd | Hd].
    + rewrite poll_loop_done in * by exact Hd. exact Hrun.
    + simpl in Hrun. rewrite (proj2 (String.eqb_neq _ _) Hd) in Hrun.
      unfold spin in Hrun. injection Hrun as <- _. now destruct Hr.
  - destruct (String.eqb_spec (Status results) "done") as [Hd | Hd].
    + rewrite poll_loop_done in * by exact Hd. exact Hrun.
    + rewrite poll_loop_step in * by exact Hd. unfold bind in *.
      destruct (polling baseURL pce origResp st) as [[r1 | e | |] st1]; auto.
Qed.

Lemma send_request_more_fuel fuel httpAction apiURL pce body async st r st' :
  send_request fuel httpAction apiURL pce body async st = (r, st') ->
  r <> Spin ->
  send_request (S fuel) httpAction apiURL pce body async st = (r, st').
Proof.
  destruct (action_refused (strings_ToUpper httpAction)) eqn:Hr.
  { now rewrite !(send_request_refused _ _ _ _ _ _ _ Hr). }
  destruct (url_Parse apiURL) as [e | u] eqn:Hu.
  { now rewrite !(send_request_bad_url _ _ _ _ _ _ _ _ Hr Hu). }
  destruct (http_RoundTrip (apicall_client pce) (first_request httpAction apiURL pce body async)
              (world st)) as [answer w] eqn:Hrt.
  rewrite !(send_request_sent _ _ _ _ _ _ _ _ _ _ Hr Hu Hrt).
  destruct answer as [e | resp]; [auto |]. destruct async; [| auto].
  unfold bind. intros Hrun Hns.
  destruct (poll_loop fuel (base_url u) pce resp zero_asyncResults _)
    as [r1 st1] eqn:Hloop.
  assert (r1 <> Spin) as Hr1.
  { intros ->. injection Hrun as <- _. now destruct Hns. }
  now rewrite (poll_loop_more_fuel _ _ _ _ _ _ _ _ Hloop Hr1).
Qed.

Lemma apicall_more_fuel fuel httpAction apiURL pce body async st :
  fst (apicall fuel httpAction apiURL pce body async st) <> Unfinished ->
  apicall (S fuel) httpAction apiURL pce body async st
  = apicall fuel httpAction apiURL pce body async st.
Proof.
  destruct (send_request fuel httpAction apiURL pce body async st) as [r st'] eqn:Hs.
  intros Hu.
  assert (r <> Spin) as Hr.
  { intros ->. rewrite (apicall_Spin _ _ _ _ _ _ _ _ Hs) in Hu. now destruct Hu. }
  pose proof (send_request_more_fuel _ _ _ _ _ _ _ _ _ Hs Hr) as Hs'.
  unfold apicall, apicall_steps, bind. now rewrite Hs, Hs'.
Qed.




(** C6 (amended). A job-status poll whose body [json.Unmarshal] refuses
    does not abort the call: [polling] returns no error and hands back
    whatever the decoder left in the struct; and when the status left there
    is not done (it is empty when nothing was stored), the loop goes on
    with another call of [polling]. *)
Theorem undecodable_poll baseURL pce origResp st uj wait pollResp w data e :
  url_Parse (job_url baseURL origResp) = inr uj ->
  retry_after origResp = inr wait ->
  http_RoundTrip polling_client (poll_request baseURL pce origResp)
    (time_passes (int64 (wait * time_Second)) (world st)) = (inr pollResp, w) ->
  resp_Body pollResp = (data, None) ->
  snd (json_Unmarshal data zero_asyncResults) = Some e ->
  let results := fst (json_Unmarshal data zero_asyncResults) in
  let st' := {| world := w;
                trace := trace st ++ poll_cycle baseURL pce origResp
                                       (int64 (wait * time_Second)) (inr pollResp) |} in
  polling baseURL pce origResp st = (Val results, st')
  /\ (results = zero_asyncResults -> Status results = "")
  /\ (Status results <> "done" ->
      forall fuel prior, Status prior <> "done" ->
        poll_loop (S (S fuel)) baseURL pce origResp prior st
        = bind (polling baseURL pce origResp) (poll_loop fuel baseURL pce origResp) st').
Proof.
  intros Huj Hw Hrt Hb He results st'.
  assert (Hp : polling baseURL pce origResp st = (Val results, st')).
  { rewrite (polling_run _ _ _ _ _ _ _ _ Huj Hw Hrt), Hb. reflexivity. }
  split; [exact Hp |]. split.
  - now intros ->.
  - intros Hnd fuel prior Hprior.
    rewrite (poll_loop_step _ _ _ _ _ _ Hprior), (bind_Val _ _ _ _ _ Hp).
    now apply poll_loop_step.
Qed.

(** *** The response a call hands back *)



(** C2. An asynchronous call whose submission is answered with
    [Location: /jobs/123] and [Retry-After: 0], whose first poll body
    decodes to status pending and second to status done with the result at
    [/results/123], and whose result fetch is answered with status 200 and
    a body [b] (the specification takes ok), returns that body with status
    code 200 and a nil error, after exactly these exchanges: the
    submission, two polls, each after a sleep of length 0, and one result
    fetch. *)
Theorem async_two_polls fuel httpAction apiURL pce body st u resp0 w1 uj p1 w2 d1 p2 w3 d2 uf rf w4 b :
  action_refused (strings_ToUpper httpAction) = false ->
  url_Parse apiURL = inr u ->
  let client := apicall_client pce in
  let req0 := first_request httpAction apiURL pce body true in
  http_RoundTrip client req0 (world st) = (inr resp0, w1) ->
  Header_Get (resp_Header resp0) "Location" = "/jobs/123" ->
  Header_Get (resp_Header resp0) "Retry-After" = "0" ->
  url_Parse (base_url u ++ "/jobs/123") = inr uj ->
  let pollReq := poll_request (base_url u) pce resp0 in
  http_RoundTrip polling_client pollReq (time_passes 0 w1) = (inr p1, w2) ->
  resp_Body p1 = (d1, None) ->
  Status (fst (json_Unmarshal d1 zero_asyncResults)) = "pending" ->
  http_RoundTrip polling_client pollReq (time_passes 0 w2) = (inr p2, w3) ->
  resp_Body p2 = (d2, None) ->
  let results := fst (json_Unmarshal d2 zero_asyncResults) in
  Status results = "done" ->
  Href_ (Result results) = "/results/123" ->
  url_Parse (base_url u ++ "/results/123") = inr uf ->
  let finalReq := final_request (base_url u) pce body results in
  http_RoundTrip client finalReq w3 = (inr rf, w4) ->
  resp_StatusCode rf = 200 ->
  resp_Body rf = (b, None) ->
  apicall (S (S fuel)) httpAction apiURL pce body true st =
  (Returns {| RespBody := b; StatusCode := 200; Header := resp_Header rf;
              Request := resp_Request rf |} None,
   {| world := w4;
      trace := trace st ++ [Do client req0 (inr resp0);
                            Sleep 0; Do polling_client pollReq (inr p1);
                            Sleep 0; Do polling_client pollReq (inr p2);
                            Do client finalReq (inr rf)] |})
  /\ http.URL pollReq = base_url u ++ "/jobs/123"
  /\ http.URL finalReq = base_url u ++ "/results/123".
Proof.
  intros Hr Hu client req0 Hrt0 Hloc Hretry Huj pollReq Hrt1 Hb1 Hs1 Hrt2 Hb2 results
    Hs2 Href Huf finalReq Hrtf Hcode Hbf.
  assert (Hju : job_url (base_url u) resp0 = base_url u ++ "/jobs/123")
    by (unfold job_url; now rewrite Hloc).
  assert (Hw : retry_after resp0 = inr 0) by (unfold retry_after; now rewrite Hretry).
  rewrite <- Hju in Huj. rewrite <- Href in Huf.
  split; [| split; [exact Hju | unfold finalReq, final_request; now rewrite Href]].
  set (st1 := after_Do st client req0 (inr resp0) w1).
  set (st2 := {| world := w2;
                 trace := trace st1 ++ poll_cycle (base_url u) pce resp0 0 (inr p1) |}).
  set (st3 := {| world := w3;
                 trace := trace st2 ++ poll_cycle (base_url u) pce resp0 0 (inr p2) |}).
  assert (Hp1 : polling (base_url u) pce resp0 st1
                = (Val (fst (json_Unmarshal d1 zero_asyncResults)), st2)).
  { rewrite (polling_run _ _ _ st1 _ _ _ _ Huj Hw Hrt1), Hb1. reflexivity. }
  assert (Hp2 : polling (base_url u) pce resp0 st2 = (Val results, st3)).
  { rewrite (polling_run _ _ _ st2 _ _ _ _ Huj Hw Hrt2), Hb2. reflexivity. }
  assert (Hloop : poll_loop (S (S fuel)) (base_url u) pce resp0 zero_asyncResults st1
                  = (Val results, st3)).
  { rewrite poll_loop_step by discriminate. rewrite (bind_Val _ _ _ _ _ Hp1).
    rewrite poll_loop_step by (rewrite Hs1; discriminate).
    rewrite (bind_Val _ _ _ _ _ Hp2). now apply poll_loop_done. }
  assert (Hsend : send_request (S (S fuel)) httpAction apiURL pce body true st
                  = (Val rf, after_Do st3 client finalReq (inr rf) w4)).
  { rewrite (send_request_sent _ _ _ _ _ _ _ _ _ _ Hr Hu Hrt0).
    change (after_Do st (apicall_client pce) (first_request httpAction apiURL pce body true)
              (inr resp0) w1) with st1.
    rewrite (bind_Val _ _ _ _ _ Hloop).
    now rewrite (fetch_result_run (base_url u) pce body results st3 uf (inr rf) w4 Huf Hrtf). }
  rewrite (apicall_Val _ _ _ _ _ _ _ _ _ Hsend), Hbf, Hcode. simpl.
  unfold filled. rewrite Hcode. simpl. f_equal.
  unfold after_Do, st3, st2, st1, after_Do, poll_cycle. simpl.
  f_equal. rewrite <- !app_assoc. reflexivity.
Qed.

End Transport.

(** ** Scripted runs *)

Section ScriptedRuns.

Import Scripted.

#[local] Existing Instance Scripted.runtime.

(** A refused action: no exchange, the zero response. *)
Lemma method_validation_witness :
  apicall 0 "patch" apiURL pce "" false (start [reply 200 ∅ "ok"])
  = (Returns zero_APIResponse (Some invalid_action), start [reply 200 ∅ "ok"])
  /\ strings_ToUpper "dElEtE" = "DELETE".
Proof.
  split.
  - apply (proj1 (proj2 method_validation) "patch"); [reflexivity |].
    intros k [<- | [<- | [<- | [<- | []]]]]; reflexivity.
  - apply (proj2 (proj2 method_validation) "dElEtE" "DELETE"); [| reflexivity].
    simpl. auto.
Defined.

(** A URL without scheme: the call panics before anything is sent. *)
Lemma unparsable_url_panics_witness :
  apicall 0 "GET" bad_url pce "" false (start [reply 200 ∅ "ok"])
  = (Panics, start [reply 200 ∅ "ok"]).
Proof.
  apply (unparsable_url_panics 0 "GET" bad_url pce "" false (start [reply 200 ∅ "ok"])
           (url_Error "parse" bad_url "missing protocol scheme")); reflexivity.
Defined.

(** C10 as stated fails: with an action that the validation refuses, the
    call returns the invalid-action error and does not get as far as the
    URL, which [url.Parse] would refuse. *)
Lemma refused_action_before_parse :
  url_Parse bad_url = inl (url_Error "parse" bad_url "missing protocol scheme")
  /\ apicall 0 "PATCH" bad_url pce "" false (start [])
     = (Returns zero_APIResponse (Some invalid_action), start []).
Proof. split; reflexivity. Qed.

(** A synchronous call answered with 404: the error names the code, the
    response is filled. *)
Lemma status_check_witness :
  apicall 0 "GET" apiURL pce "" false (start [reply 404 ∅ "not found"])
  = (Returns {| RespBody := "not found"; StatusCode := 404; Header := ∅; Request := None |}
       (Some (errorString "http status code of 404")),
     served 1 [reply 404 ∅ "not found"]
       [Do (apicall_client pce) (first_request "GET" apiURL pce "" false)
          (inr (reply 404 ∅ "not found"))]).
Proof.
  apply (proj1 (status_check 0 "GET" apiURL pce "" false (start [reply 404 ∅ "not found"])
                  (reply 404 ∅ "not found") _ "not found" eq_refl eq_refl)).
  intros Hl. apply Itoa_leading_2 in Hl. discriminate Hl.
Defined.

(** C3 as stated fails: a final response with status 200 whose body
    breaks off gives the read error, not nil; with status 404 it gives the
    read error, which does not name the code, and the zero response. *)
Lemma read_failure_overrides_status :
  leading_digit 200 2
  /\ apicall 0 "GET" apiURL pce "" false (start [broken 200 ∅ "par"])
     = (Returns zero_APIResponse (Some (other_error "unexpected EOF")),
        served 1 [broken 200 ∅ "par"]
          [Do (apicall_client pce) (first_request "GET" apiURL pce "" false)
             (inr (broken 200 ∅ "par"))])
  /\ apicall 0 "GET" apiURL pce "" false (start [broken 404 ∅ "par"])
     = (Returns zero_APIResponse (Some (other_error "unexpected EOF")),
        served 1 [broken 404 ∅ "par"]
          [Do (apicall_client pce) (first_request "GET" apiURL pce "" false)
             (inr (broken 404 ∅ "par"))]).
Proof. split; [exists 2; lia | split; reflexivity]. Qed.



(** The run of the specification: the submission, two polls, the fetch. *)
Lemma async_two_polls_witness :
  apicall 2 "get" apiURL pce "" true (start two_polls)
  = (Returns {| RespBody := "ok"; StatusCode := 200; Header := ∅; Request := None |} None,
     served 4 two_polls
       [Do (apicall_client pce) (first_request "get" apiURL pce "" true) (inr accepted);
        Sleep 0;
        Do polling_client (poll_request base pce accepted) (inr (reply 200 ∅ body_pending));
        Sleep 0;
        Do polling_client (poll_request base pce accepted) (inr (reply 200 ∅ body_done));
        Do (apicall_client pce) (final_request base pce "" job_done) (inr (reply 200 ∅ "ok"))]).
Proof.
  exact (proj1 (async_two_polls 0 "get" apiURL pce "" (start two_polls) parsed
                  accepted (map inr (drop 1 two_polls))
                  {| url.Scheme := "https"; url.Host := "pce.example.com:8443";
                     url.Path := "/api/v1/jobs/123" |}
                  (reply 200 ∅ body_pending) (map inr (drop 2 two_polls)) body_pending
                  (reply 200 ∅ body_done) (map inr (drop 3 two_polls)) body_done
                  {| url.Scheme := "https"; url.Host := "pce.example.com:8443";
                     url.Path := "/api/v1/results/123" |}
                  (reply 200 ∅ "ok") [] "ok"
                  eq_refl eq_refl eq_refl eq_refl eq_refl eq_refl eq_refl eq_refl eq_refl
                  eq_refl eq_refl eq_refl eq_refl eq_refl eq_refl eq_refl eq_refl)).
Defined.



(** A poll body cut short: no error, nothing stored, the loop goes on. *)
Lemma undecodable_poll_witness :
  polling base pce accepted (start [reply 200 ∅ body_cut; reply 200 ∅ body_done])
  = (Val zero_asyncResults,
     served 1 [reply 200 ∅ body_cut; reply 200 ∅ body_done]
       (poll_cycle base pce accepted 0 (inr (reply 200 ∅ body_cut))))
  /\ poll_loop 2 base pce accepted zero_asyncResults
       (start [reply 200 ∅ body_cut; reply 200 ∅ body_done])
     = bind (polling base pce accepted) (poll_loop 0 base pce accepted)
         (served 1 [reply 200 ∅ body_cut; reply 200 ∅ body_done]
            (poll_cycle base pce accepted 0 (inr (reply 200 ∅ body_cut)))).
Proof.
  pose proof (undecodable_poll base pce accepted
                (start [reply 200 ∅ body_cut; reply 200 ∅ body_done])
                {| url.Scheme := "https"; url.Host := "pce.example.com:8443";
                   url.Path := "/api/v1/jobs/123" |}
                0 (reply 200 ∅ body_cut) (map inr [reply 200 ∅ body_done]) body_cut
                (other_error "unexpected end of JSON input")
                eq_refl eq_refl eq_refl eq_refl eq_refl) as (Hp & _ & Hloop).
  split; [exact Hp |].
  apply (Hloop ltac:(discriminate) 0%nat zero_asyncResults ltac:(discriminate)).
Defined.

(** C6 as stated fails: [json.Unmarshal] refuses a body whose [result]
    is a number, yet the status it read before, done, stays in the struct:
    the status is not left empty and the loop ends. *)
Lemma mistyped_poll_ends_loop :
  snd (json_Unmarshal body_mistyped zero_asyncResults)
  = Some (other_error "json: cannot unmarshal number into Go struct field asyncResults.result")
  /\ polling base pce accepted (start [reply 200 ∅ body_mistyped])
     = (Val job_mistyped,
        served 1 [reply 200 ∅ body_mistyped]
          (poll_cycle base pce accepted 0 (inr (reply 200 ∅ body_mistyped))))
  /\ Status job_mistyped = "done"
  /\ poll_loop 5 base pce accepted zero_asyncResults (start [reply 200 ∅ body_mistyped])
     = (Val job_mistyped,
        served 1 [reply 200 ∅ body_mistyped]
          (poll_cycle base pce accepted 0 (inr (reply 200 ∅ body_mistyped)))).
Proof. repeat split; vm_compute; reflexivity. Qed.

End ScriptedRuns.

(** * The callers of the transport *)

(** ** [GetTrafficAnalysis]: the payload *)

Section Payload.

Context `{Declarations}.

Lemma fold_add_entry (i : nat) (f : string -> Include.t) (g : string -> Exclude.t)
  (members : list string) :
  forall l0 l1 l2 l3,
    fold_left (fun a x => add_entry i (f x) (g x) a) members
      {| sourceInc := Some l0; destInc := Some l1; sourceExcl := Some l2; destExcl := Some l3 |}
    = match i with
      | 0%nat => {| sourceInc := Some (l0 ++ map f members)%list; destInc := Some l1;
                    sourceExcl := Some l2; destExcl := Some l3 |}
      | 1%nat => {| sourceInc := Some l0; destInc := Some (l1 ++ map f members)%list;
                    sourceExcl := Some l2; destExcl := Some l3 |}
      | 2%nat => {| sourceInc := Some l0; destInc := Some l1;
                    sourceExcl := Some (l2 ++ map g members)%list; destExcl := Some l3 |}
      | 3%nat => {| sourceInc := Some l0; destInc := Some l1;
                    sourceExcl := Some l2; destExcl := Some (l3 ++ map g members)%list |}
      | _ => {| sourceInc := Some l0; destInc := Some l1;
                sourceExcl := Some l2; destExcl := Some l3 |}
      end.
Proof.
  induction members as [|x members IH]; intros l0 l1 l2 l3.
  - simpl. rewrite !app_nil_r. now destruct i as [|[|[|[|i]]]].
  - destruct i as [|[|[|[|i]]]]; simpl; unfold go_append; simpl; rewrite IH;
      rewrite <- ?app_assoc; reflexivity.
Qed.

(** One pass of the first loop appends the reading of the list to the
    slice that the counter names. *)
Lemma translate_list_at (queryLists : list (Slice string)) (i : nat) (queryList : Slice string)
  l0 l1 l2 l3 :
  nth i queryLists None = queryList ->
  translate_list queryLists i queryList
    {| sourceInc := Some l0; destInc := Some l1; sourceExcl := Some l2; destExcl := Some l3 |}
  = match i with
    | 0%nat => {| sourceInc := Some (l0 ++ includes_of queryList)%list; destInc := Some l1;
                  sourceExcl := Some l2; destExcl := Some l3 |}
    | 1%nat => {| sourceInc := Some l0; destInc := Some (l1 ++ includes_of queryList)%list;
                  sourceExcl := Some l2; destExcl := Some l3 |}
    | 2%nat => {| sourceInc := Some l0; destInc := Some l1;
                  sourceExcl := Some (l2 ++ excludes_of queryList)%list; destExcl := Some l3 |}
    | 3%nat => {| sourceInc := Some l0; destInc := Some l1;
                  sourceExcl := Some l2; destExcl := Some (l3 ++ excludes_of queryList)%list |}
    | _ => {| sourceInc := Some l0; destInc := Some l1;
              sourceExcl := Some l2; destExcl := Some l3 |}
    end.
Proof.
  intros Hnth. unfold translate_list, includes_of, excludes_of, kind_of. rewrite Hnth.
  destruct (elems queryList) as [|first rest] eqn:E.
  - rewrite !app_nil_r. now destruct i as [|[|[|[|i]]]].
  - destruct (strings_Contains first "label").
    { cbv zeta. now rewrite fold_add_entry. }
    destruct (strings_Contains first "workload").
    { cbv zeta. now rewrite fold_add_entry. }
    destruct (0 <? len first)%nat.
    { cbv zeta. now rewrite fold_add_entry. }
    rewrite !app_nil_r. now destruct i as [|[|[|[|i]]]].
Qed.

(** X1. Each of the four endpoint lists of the query is translated on its
    own, entry by entry and in its order, into the slice of its name; what
    the entries are taken for is read off the first entry alone. *)
Theorem translate_endpoints_spec (query : TrafficQuery) :
  translate_endpoints query =
  {| sourceInc := Some (includes_of (SourcesInclude query));
     destInc := Some (includes_of (DestinationsInclude query));
     sourceExcl := Some (excludes_of (SourcesExclude query));
     destExcl := Some (excludes_of (DestinationsExclude query)) |}.
Proof.
  unfold translate_endpoints, make0.
  set (queryLists := [SourcesInclude query; DestinationsInclude query;
                      SourcesExclude query; DestinationsExclude query]).
  change (fold_left _ queryLists ?s)
    with (let '(i, a) := s in
          let a := translate_list queryLists i (SourcesInclude query) a in
          let a := translate_list queryLists (S i) (DestinationsInclude query) a in
          let a := translate_list queryLists (S (S i)) (SourcesExclude query) a in
          let a := translate_list queryLists (S (S (S i))) (DestinationsExclude query) a in
          (S (S (S (S i))), a)).
  cbv beta iota zeta.
  rewrite (translate_list_at queryLists 0 (SourcesInclude query) [] [] [] [] eq_refl).
  rewrite (translate_list_at queryLists 1 (DestinationsInclude query) _ [] [] [] eq_refl).
  rewrite (translate_list_at queryLists 2 (SourcesExclude query) _ _ [] [] eq_refl).
  rewrite (translate_list_at queryLists 3 (DestinationsExclude query) _ _ _ [] eq_refl).
  reflexivity.
Qed.

Lemma fold_go_append {A B} (f : A -> B) (l : list A) :
  forall l0, fold_left (fun s x => go_append s (f x)) l (Some l0) = Some (l0 ++ map f l)%list.
Proof.
  induction l as [|x l IH]; intros l0; simpl.
  - now rewrite app_nil_r.
  - unfold go_append at 2. simpl. rewrite IH, <- app_assoc. reflexivity.
Qed.

(** X2. The service slices hold, in this order, one entry per
    port-and-protocol pair, per port range, per process and per Windows
    service of the query, each in the order of its list. *)
Theorem translate_services_spec (query : TrafficQuery) :
  translate_services query =
  (Some (map (fun pp => Include_PortProto (fst pp) (snd pp)) (elems (PortProtoInclude query))
         ++ map (fun pr => Include_PortRange (fst pr) (snd pr)) (elems (PortRangeInclude query))
         ++ map Include_Process (elems (ProcessInclude query))
         ++ map Include_WindowsService (elems (WindowsServiceInclude query)))%list,
   Some (map (fun pp => Exclude_PortProto (fst pp) (snd pp)) (elems (PortProtoExclude query))
         ++ map (fun pr => Exclude_PortRange (fst pr) (snd pr)) (elems (PortRangeExclude query))
         ++ map Exclude_Process (elems (ProcessExclude query))
         ++ map Exclude_WindowsService (elems (WindowsServiceExclude query)))%list).
Proof.
  unfold translate_services, make0. cbv zeta.
  rewrite !fold_go_append. simpl app. rewrite <- !app_assoc. reflexivity.
Qed.


Lemma include_as_one_endpoint (k : kind) (entry : string) : one_endpoint (include_as k entry).
Proof. destruct k; repeat split. Qed.

Lemma exclude_as_one_endpoint (k : kind) (entry : string) : one_endpoint_x (exclude_as k entry).
Proof. destruct k; repeat split. Qed.

Lemma includes_of_one_endpoint (queryList : Slice string) :
  Forall one_endpoint (includes_of queryList).
Proof.
  unfold includes_of.
  destruct (kind_of queryList); try constructor;
    apply Forall_map, Forall_forall; intros; apply include_as_one_endpoint.
Qed.

Lemma excludes_of_one_endpoint (queryList : Slice string) :
  Forall one_endpoint_x (excludes_of queryList).
Proof.
  unfold excludes_of.
  destruct (kind_of queryList); try constructor;
    apply Forall_map, Forall_forall; intros; apply exclude_as_one_endpoint.
Qed.

(** X4. Every entry of the sources and destinations of the payload names
    exactly one endpoint (a label or a workload or an IP address) and
    carries no port, protocol, process or service; every entry of the
    services names no endpoint. *)
Theorem payload_entries_well_formed (query : TrafficQuery) :
  let e := translate_endpoints query in
  let s := translate_services query in
  Forall one_endpoint (elems (sourceInc e))
  /\ Forall one_endpoint (elems (destInc e))
  /\ Forall one_endpoint_x (elems (sourceExcl e))
  /\ Forall one_endpoint_x (elems (destExcl e))
  /\ Forall no_endpoint (elems (fst s))
  /\ Forall no_endpoint_x (elems (snd s)).
Proof.
  cbv zeta. rewrite translate_endpoints_spec, translate_services_spec. simpl.
  repeat split;
    try apply includes_of_one_endpoint; try apply excludes_of_one_endpoint;
    rewrite ?Forall_app; repeat split;
    apply Forall_map, Forall_forall; intros; repeat split.
Qed.

(** the number of entries that a list contributes *)
Lemma kept_includes (queryList : Slice string) :
  List.length (includes_of queryList) = kept queryList
  /\ List.length (excludes_of queryList) = kept queryList.
Proof.
  unfold includes_of, excludes_of, kind_of, kept.
  destruct (elems queryList) as [|first rest]; [auto |].
  destruct first as [|c first]; [auto |].
  change ((String c first =? "")%string) with false.
  destruct (strings_Contains (String c first) "label");
    [simpl; now rewrite !length_map |].
  destruct (strings_Contains (String c first) "workload");
    [simpl; now rewrite !length_map |].
  simpl. now rewrite !length_map.
Qed.

(** X5. A list of endpoints is dropped whole when its first entry is the
    empty string, whatever follows it; in every other case the slice built
    from it has one entry per entry of the list. *)
Theorem endpoints_kept_or_dropped (query : TrafficQuery) :
  let e := translate_endpoints query in
  List.length (elems (sourceInc e)) = kept (SourcesInclude query)
  /\ List.length (elems (destInc e)) = kept (DestinationsInclude query)
  /\ List.length (elems (sourceExcl e)) = kept (SourcesExclude query)
  /\ List.length (elems (destExcl e)) = kept (DestinationsExclude query).
Proof.
  cbv zeta. rewrite translate_endpoints_spec. simpl.
  repeat split; apply kept_includes.
Qed.

End Payload.

(** * More on the transport ([http.go]) *)

Section TransportMore.

Context `{Runtime}.

(** ** Synchronous calls *)

Lemma send_request_sync fuel httpAction apiURL pce body st :
  send_request fuel httpAction apiURL pce body false st
  = send_request 0 httpAction apiURL pce body false st.
Proof.
  destruct (action_refused (strings_ToUpper httpAction)) eqn:Hr.
  { now rewrite !(send_request_refused _ _ _ _ _ _ _ Hr). }
  destruct (url_Parse apiURL) as [e | u] eqn:Hu.
  { now rewrite !(send_request_bad_url _ _ _ _ _ _ _ _ Hr Hu). }
  destruct (http_RoundTrip (apicall_client pce) (first_request httpAction apiURL pce body false)
              (world st)) as [answer w] eqn:Hrt.
  now rewrite !(send_request_sent _ _ _ _ _ _ _ _ _ _ Hr Hu Hrt).
Qed.

Lemma send_request_sync_not_Spin fuel httpAction apiURL pce body st :
  fst (send_request fuel httpAction apiURL pce body false st) <> Spin.
Proof.
  destruct (action_refused (strings_ToUpper httpAction)) eqn:Hr.
  { now rewrite (send_request_refused _ _ _ _ _ _ _ Hr). }
  destruct (url_Parse apiURL) as [e | u] eqn:Hu.
  { now rewrite (send_request_bad_url _ _ _ _ _ _ _ _ Hr Hu). }
  destruct (http_RoundTrip (apicall_client pce) (first_request httpAction apiURL pce body false)
              (world st)) as [answer w] eqn:Hrt.
  rewrite (send_request_sent _ _ _ _ _ _ _ _ _ _ Hr Hu Hrt). now destruct answer.
Qed.

Lemma apicall_sync_trace fuel httpAction apiURL pce body st :
  trace (snd (apicall fuel httpAction apiURL pce body false st)) = trace st
  \/ exists answer,
      trace (snd (apicall fuel httpAction apiURL pce body false st))
      = (trace st ++ [Do (apicall_client pce) (first_request httpAction apiURL pce body false)
                        answer])%list.
Proof.
  rewrite apicall_state.
  destruct (send_request_trace fuel httpAction apiURL pce body false st)
    as (evs & Ht & [-> | (u & answer & rest & _ & -> & Hrest)]).
  - left. now rewrite Ht, app_nil_r.
  - right. exists answer. rewrite Ht.
    destruct Hrest as [-> | (resp & Hasync & _)]; [reflexivity | discriminate].
Qed.

(** X6. A synchronous call sends at most one request, the first one, never
    sleeps, and always comes to an answer: its result is the same under
    every bound on the polling loop. *)
Theorem sync_call_one_exchange fuel httpAction apiURL pce body st :
  apicall fuel httpAction apiURL pce body false st
  = apicall 0 httpAction apiURL pce body false st
  /\ fst (apicall fuel httpAction apiURL pce body false st) <> Unfinished
  /\ (trace (snd (apicall fuel httpAction apiURL pce body false st)) = trace st
      \/ exists answer,
          trace (snd (apicall fuel httpAction apiURL pce body false st))
          = (trace st ++ [Do (apicall_client pce)
                            (first_request httpAction apiURL pce body false) answer])%list).
Proof.
  split; [| split].
  - unfold apicall, apicall_steps, bind. now rewrite send_request_sync.
  - pose proof (send_request_sync_not_Spin fuel httpAction apiURL pce body st) as Hns.
    unfold apicall, apicall_steps, bind.
    destruct (send_request fuel httpAction apiURL pce body false st) as [[resp | e | |] st'];
      simpl in *; try discriminate; [| now destruct Hns].
    unfold process_response, bind, try_read, ioutil_ReadAll.
    destruct (snd (resp_Body resp)); [discriminate |].
    now destruct (negb (slice (strconv_Itoa (resp_StatusCode resp)) 0 1 =? "2")%string).
  - apply apicall_sync_trace.
Qed.

(** ** The requests of a call *)

Lemma requests_app (a b : list event) : requests (a ++ b) = (requests a ++ requests b)%list.
Proof.
  induction a as [|[c req ans | d] a IH]; simpl; [reflexivity | now rewrite IH | exact IH].
Qed.

Lemma requests_cycles baseURL pce origResp d answers :
  requests (flat_map (poll_cycle baseURL pce origResp d) answers)
  = map (fun _ => poll_request baseURL pce origResp) answers.
Proof. induction answers as [|a answers IH]; simpl; [reflexivity | now rewrite IH]. Qed.

Lemma Header_Get_Set_eq (h : http_Header) (key value : string) :
  Header_Get (Header_Set h key value) key = value.
Proof. unfold Header_Get, Header_Set. now rewrite lookup_insert_eq. Qed.

Lemma Header_Get_Set_ne (h : http_Header) (key key' value : string) :
  key <> key' -> Header_Get (Header_Set h key value) key' = Header_Get h key'.
Proof. intros Hne. unfold Header_Get, Header_Set. now rewrite lookup_insert_ne. Qed.

Lemma authorised_credentialed (req : http.Request) (pce : PCE) :
  credentialed pce (authorised req pce).
Proof. split; [reflexivity | apply Header_Get_Set_eq]. Qed.

Lemma first_request_credentialed httpAction apiURL pce body async :
  credentialed pce (first_request httpAction apiURL pce body async).
Proof.
  unfold first_request. destruct async; [| apply authorised_credentialed].
  split; [reflexivity |]. simpl.
  rewrite Header_Get_Set_ne by discriminate. apply Header_Get_Set_eq.
Qed.

Lemma authorised_GET_plain (url : string) (body : option string) (pce : PCE) :
  plain_GET (authorised (bare_request "GET" url body) pce).
Proof.
  split; [reflexivity |]. simpl.
  rewrite Header_Get_Set_ne by discriminate. reflexivity.
Qed.

(** the requests of the asynchronous part: the polls and the fetch *)
Lemma async_events_requests baseURL pce body origResp evs (P : http.Request -> Prop) :
  async_events baseURL pce body origResp evs ->
  P (poll_request baseURL pce origResp) ->
  (forall results, P (final_request baseURL pce body results)) ->
  Forall P (requests evs).
Proof.
  intros (answers & fin & -> & Hfin) Hpoll Hfinal.
  rewrite requests_app, requests_cycles. apply Forall_app. split.
  - apply Forall_map, Forall_forall. intros; exact Hpoll.
  - destruct Hfin as [-> | (results & answer & ->)]; simpl; [constructor |].
    constructor; [apply Hfinal | constructor].
Qed.

(** X7. Every request of a call (the first one, every job-status poll and
    the result fetch) carries the user and key of the PCE as basic
    authentication and the content type [application/json]. *)
Theorem every_request_credentialed fuel httpAction apiURL pce body async st :
  exists evs,
    trace (snd (apicall fuel httpAction apiURL pce body async st)) = (trace st ++ evs)%list
    /\ Forall (credentialed pce) (requests evs).
Proof.
  rewrite apicall_state.
  destruct (send_request_trace fuel httpAction apiURL pce body async st)
    as (evs & Ht & [-> | (u & answer & rest & _ & -> & Hrest)]);
    eexists; (split; [exact Ht |]); simpl; [constructor |].
  constructor; [apply first_request_credentialed |].
  destruct Hrest as [-> | (resp & _ & _ & Hev)]; [constructor |].
  apply (async_events_requests _ _ _ _ _ _ Hev); intros; apply authorised_credentialed.
Qed.

(** X8. The first request of a call has the action in upper case as its
    method and carries [Prefer: respond-async] exactly when the call is
    asynchronous; every later request (job-status polls and the result
    fetch) is a GET without that header, whatever the action of the call. *)
Theorem later_requests_are_plain_GETs fuel httpAction apiURL pce body async st :
  exists evs,
    trace (snd (apicall fuel httpAction apiURL pce body async st)) = (trace st ++ evs)%list
    /\ match requests evs with
       | [] => True
       | first :: later =>
           http.Method first = strings_ToUpper httpAction
           /\ Header_Get (http.Header first) "Prefer"
              = (if async then "respond-async" else "")
           /\ Forall plain_GET later
       end.
Proof.
  rewrite apicall_state.
  destruct (send_request_trace fuel httpAction apiURL pce body async st)
    as (evs & Ht & [-> | (u & answer & rest & _ & -> & Hrest)]);
    eexists; (split; [exact Ht |]); simpl; [exact I |].
  split; [now destruct async |]. split.
  - unfold first_request. destruct async; simpl.
    + apply Header_Get_Set_eq.
    + rewrite Header_Get_Set_ne by discriminate. reflexivity.
  - destruct Hrest as [-> | (resp & _ & _ & Hev)]; [constructor |].
    apply (async_events_requests _ _ _ _ _ _ Hev); intros; apply authorised_GET_plain.
Qed.

End TransportMore.

(** ** Jobs *)

Section Jobs.

Context `{Runtime}.

(** While every job-status answer reads as a status other than [done], the
    loop goes through one cycle after the other: a bound of [fuel] cycles
    is used up, with [fuel] cycles in the trace. *)
Lemma poll_loop_pending baseURL pce origResp u wait :
  url_Parse (job_url baseURL origResp) = inr u ->
  retry_after origResp = inr wait ->
  (forall w0, exists pollResp w1,
      http_RoundTrip polling_client (poll_request baseURL pce origResp)
        (time_passes (int64 (wait * time_Second)) w0) = (inr pollResp, w1)
      /\ snd (resp_Body pollResp) = None
      /\ Status (fst (json_Unmarshal (fst (resp_Body pollResp)) zero_asyncResults)) <> "done") ->
  forall fuel results st,
    Status results <> "done" ->
    exists answers st',
      poll_loop fuel baseURL pce origResp results st = (Spin, st')
      /\ List.length answers = fuel
      /\ trace st'
         = (trace st
            ++ flat_map (poll_cycle baseURL pce origResp (int64 (wait * time_Second))) answers)%list.
Proof.
  intros Hu Hw Hpoll. induction fuel as [|fuel IH]; intros results st Hd.
  - exists [], st. simpl. rewrite (proj2 (String.eqb_neq _ _) Hd), app_nil_r. auto.
  - rewrite (poll_loop_step _ _ _ _ _ _ Hd). unfold bind.
    destruct (Hpoll (world st)) as (pollResp & w1 & Hrt & Hread & Hstatus).
    rewrite (polling_run _ _ _ _ _ _ _ _ Hu Hw Hrt), Hread.
    destruct (IH _ {| world := w1;
                      trace := trace st ++ poll_cycle baseURL pce origResp
                                             (int64 (wait * time_Second)) (inr pollResp) |}
                Hstatus) as (answers & st' & Hrun & Hlen & Ht).
    exists (inr pollResp :: answers), st'. rewrite Hrun. split; [reflexivity |].
    split; [simpl; now rewrite Hlen |].
    rewrite Ht. simpl trace. simpl flat_map. now rewrite <- app_assoc.
Qed.

(** X9. The polling loop has no bound of its own. When the server accepts
    the submission and then answers every job-status request with a
    readable body whose status is not [done], the call never comes to an
    answer: whatever the number of cycles allowed, all of them are used,
    each a sleep and a poll, and nothing is returned. *)
Theorem unfinished_job_polls_forever fuel httpAction apiURL pce body st u resp w u' wait :
  action_refused (strings_ToUpper httpAction) = false ->
  url_Parse apiURL = inr u ->
  http_RoundTrip (apicall_client pce) (first_request httpAction apiURL pce body true) (world st)
  = (inr resp, w) ->
  url_Parse (job_url (base_url u) resp) = inr u' ->
  retry_after resp = inr wait ->
  (forall w0, exists pollResp w1,
      http_RoundTrip polling_client (poll_request (base_url u) pce resp)
        (time_passes (int64 (wait * time_Second)) w0) = (inr pollResp, w1)
      /\ snd (resp_Body pollResp) = None
      /\ Status (fst (json_Unmarshal (fst (resp_Body pollResp)) zero_asyncResults)) <> "done") ->
  exists answers,
    fst (apicall fuel httpAction apiURL pce body true st) = Unfinished
    /\ List.length answers = fuel
    /\ trace (snd (apicall fuel httpAction apiURL pce body true st))
       = (trace st
          ++ Do (apicall_client pce) (first_request httpAction apiURL pce body true) (inr resp)
             :: flat_map (poll_cycle (base_url u) pce resp (int64 (wait * time_Second)))
                  answers)%list.
Proof.
  intros Hr Hu Hrt Hju Hw Hpoll.
  pose proof (send_request_sent fuel _ _ _ _ _ _ _ _ _ Hr Hu Hrt) as Hs. cbv zeta in Hs.
  set (st1 := after_Do st (apicall_client pce)
                (first_request httpAction apiURL pce body true) (inr resp) w) in *.
  destruct (poll_loop_pending _ _ _ _ _ Hju Hw Hpoll fuel zero_asyncResults st1)
    as (answers & st' & Hrun & Hlen & Ht); [discriminate |].
  unfold bind in Hs. rewrite Hrun in Hs.
  exists answers. rewrite (apicall_Spin _ _ _ _ _ _ _ _ Hs). simpl.
  split; [reflexivity |]. split; [exact Hlen |].
  rewrite Ht. unfold st1, after_Do. simpl trace. now rewrite <- app_assoc.
Qed.

Lemma poll_loop_grows fuel baseURL pce origResp results st :
  exists evs, trace (snd (poll_loop fuel baseURL pce origResp results st)) = (trace st ++ evs)%list.
Proof.
  destruct (poll_loop_trace fuel baseURL pce origResp results st) as [answers Ha]. eauto.
Qed.

(** X10. The status code and the body of the answer to an asynchronous
    submission are not looked at: whatever they are, when the answer names
    a job location that parses and a numeric [Retry-After], the call
    sleeps and polls the job. *)
Theorem submission_status_not_examined fuel httpAction apiURL pce body st u resp w u' wait :
  action_refused (strings_ToUpper httpAction) = false ->
  url_Parse apiURL = inr u ->
  http_RoundTrip (apicall_client pce) (first_request httpAction apiURL pce body true) (world st)
  = (inr resp, w) ->
  url_Parse (job_url (base_url u) resp) = inr u' ->
  retry_after resp = inr wait ->
  exists answer rest,
    trace (snd (apicall (S fuel) httpAction apiURL pce body true st))
    = (trace st
       ++ Do (apicall_client pce) (first_request httpAction apiURL pce body true) (inr resp)
          :: poll_cycle (base_url u) pce resp (int64 (wait * time_Second)) answer
          ++ rest)%list.
Proof.
  intros Hr Hu Hrt Hju Hw.
  rewrite apicall_state.
  rewrite (send_request_sent (S fuel) _ _ _ _ _ _ _ _ _ Hr Hu Hrt).
  set (st1 := after_Do st (apicall_client pce)
                (first_request httpAction apiURL pce body true) (inr resp) w).
  destruct (http_RoundTrip polling_client (poll_request (base_url u) pce resp)
              (time_passes (int64 (wait * time_Second)) (world st1))) as [answer w1] eqn:Hp.
  exists answer.
  assert (Hst1 : forall evs,
             (trace st1 ++ poll_cycle (base_url u) pce resp (int64 (wait * time_Second)) answer
              ++ evs)%list
             = (trace st
                ++ Do (apicall_client pce) (first_request httpAction apiURL pce body true)
                     (inr resp)
                   :: poll_cycle (base_url u) pce resp (int64 (wait * time_Second)) answer
                   ++ evs)%list).
  { intros evs. unfold st1, after_Do. simpl trace. now rewrite <- app_assoc. }
  unfold bind at 1.
  rewrite poll_loop_step by discriminate. unfold bind at 1.
  rewrite (polling_run _ _ _ _ _ _ _ _ Hju Hw Hp).
  set (st2 := {| world := w1;
                 trace := trace st1 ++ poll_cycle (base_url u) pce resp
                                         (int64 (wait * time_Second)) answer |}).
  assert (Hst2 : forall evs, (trace st2 ++ evs)%list
                             = (trace st1 ++ poll_cycle (base_url u) pce resp
                                               (int64 (wait * time_Second)) answer ++ evs)%list).
  { intros evs. unfold st2. simpl trace. now rewrite <- app_assoc. }
  assert (Hstop : trace st2
                  = (trace st
                     ++ Do (apicall_client pce) (first_request httpAction apiURL pce body true)
                          (inr resp)
                        :: poll_cycle (base_url u) pce resp (int64 (wait * time_Second)) answer
                        ++ [])%list).
  { rewrite <- Hst1, <- Hst2. now rewrite app_nil_r. }
  destruct answer as [e | pollResp]; [exists []; exact Hstop |].
  destruct (snd (resp_Body pollResp)); [exists []; exact Hstop |].
  destruct (poll_loop_grows fuel (base_url u) pce resp
              (fst (json_Unmarshal (fst (resp_Body pollResp)) zero_asyncResults)) st2)
    as [evs Hg].
  destruct (poll_loop fuel (base_url u) pce resp
              (fst (json_Unmarshal (fst (resp_Body pollResp)) zero_asyncResults)) st2)
    as [[results | e | |] st3]; simpl in Hg;
    try (exists evs; simpl snd; rewrite Hg, Hst2, Hst1; reflexivity).
  destruct (fetch_result_trace (base_url u) pce body results st3) as [Hf | [fin Hf]];
    rewrite Hf, Hg.
  - exists evs. now rewrite Hst2, Hst1.
  - eexists. rewrite <- app_assoc, Hst2, Hst1. reflexivity.
Qed.

End Jobs.

(** ** More on [pceSanitization] *)

Section SanitizationMore.

Lemma replace_from_removes (old : string) :
  forall (s : string) (n : Z) (skip : nat),
    (len (replace_from old "" n skip s) <= len s)%nat.
Proof.
  induction s as [|c s IH]; intros n skip; simpl; [lia |].
  destruct skip as [|k].
  - destruct (n =? 0); [simpl; lia |].
    destruct (strings_HasPrefix (String c s) old).
    + rewrite app_nil. specialize (IH (n - 1) (len old - 1)%nat). lia.
    + simpl. specialize (IH n 0%nat). unfold len in *. lia.
  - specialize (IH n k). lia.
Qed.

Lemma len_slice_init (s : string) (n : nat) :
  (n <= len s)%nat -> len (slice s 0 n) = n.
Proof.
  unfold slice, len. rewrite Nat.sub_0_r. revert n.
  induction s as [|c s IH]; intros [|n] Hn; simpl in *; try reflexivity; try lia.
  rewrite IH by lia. reflexivity.
Qed.

Lemma trim_slash_len (s : string) :
  if strings_HasSuffix s "/" then S (len (trim_slash s)) = len s
  else trim_slash s = s.
Proof.
  unfold trim_slash. destruct (strings_HasSuffix s "/") eqn:E; [| reflexivity].
  unfold strings_HasSuffix in E. apply andb_true_iff in E as [E _].
  apply Nat.leb_le in E. simpl in E. rewrite len_slice_init by lia. lia.
Qed.

Lemma strip_all_len (t : string) :
  strings_HasPrefix t "https://" = true ->
  (len (strings_Replace t "https://" "" (-1)) < len t)%nat.
Proof.
  intros Hp. unfold strings_Replace. simpl.
  destruct t as [|c t]; [discriminate |].
  simpl replace_from. rewrite Hp, app_nil.
  pose proof (replace_from_removes "https://" t (-1 - 1) (len "https://" - 1)). simpl len in *.
  lia.
Qed.

(** X11. [pceSanitization] only takes bytes away: the result is never
    longer than the string given, and it is the string given exactly when
    that string neither ends in a slash nor starts with [https://]. *)
Theorem pceSanitization_shortens (s : string) :
  (len (pceSanitization s) <= len s)%nat
  /\ (pceSanitization s = s
      <-> strings_HasSuffix s "/" = false /\ strings_HasPrefix s "https://" = false).
Proof.
  assert (Hlen : (len (pceSanitization s) <= len s)%nat
                 /\ (strings_HasSuffix s "/" = true \/ strings_HasPrefix s "https://" = true ->
                     (len (pceSanitization s) < len s)%nat)).
  { pose proof (trim_slash_len s) as Ht.
    change (pceSanitization s)
      with (if strings_HasPrefix (trim_slash s) "https://"
            then strings_Replace (trim_slash s) "https://" "" (-1) else trim_slash s).
    destruct (strings_HasPrefix (trim_slash s) "https://") eqn:Hp.
    - pose proof (strip_all_len _ Hp) as Hl.
      destruct (strings_HasSuffix s "/"); [lia |]. rewrite Ht in *. lia.
    - destruct (strings_HasSuffix s "/"); [lia |]. rewrite Ht in *.
      split; [lia |]. intros [E | E]; [discriminate | congruence]. }
  destruct Hlen as [Hle Hlt]. split; [exact Hle |]. split.
  - intros E. rewrite E in Hlt.
    destruct (strings_HasSuffix s "/"); [exfalso; assert (len s < len s)%nat by auto; lia |].
    destruct (strings_HasPrefix s "https://"); [exfalso; assert (len s < len s)%nat by auto; lia |].
    auto.
  - intros [Hs Hp]. unfold pceSanitization. now rewrite Hs, Hp.
Qed.

End SanitizationMore.

(** * The callers of the transport ([explorer.go], [pairing.go]) *)

Section Callers.

Context `{Runtime} `{Library}.

Lemma POST_accepted : action_refused (strings_ToUpper "POST") = false.
Proof. reflexivity. Qed.

Lemma GET_accepted : action_refused (strings_ToUpper "GET") = false.
Proof. reflexivity. Qed.

(** A synchronous call whose action and URL are in order, by the answer
    of the server. *)
Lemma sync_answer httpAction apiURL pce body st u answer w :
  action_refused (strings_ToUpper httpAction) = false ->
  url_Parse apiURL = inr u ->
  http_RoundTrip (apicall_client pce) (first_request httpAction apiURL pce body false) (world st)
  = (answer, w) ->
  apicall 0 httpAction apiURL pce body false st
  = (match answer with
     | inl e => Returns zero_APIResponse (Some e)
     | inr resp =>
         match snd (resp_Body resp) with
         | Some e => Returns zero_APIResponse (Some e)
         | None =>
             Returns (filled resp (fst (resp_Body resp)))
               (if (slice (strconv_Itoa (resp_StatusCode resp)) 0 1 =? "2")%string
                then None else Some (status_error (resp_StatusCode resp)))
         end
     end,
     after_Do st (apicall_client pce) (first_request httpAction apiURL pce body false) answer w).
Proof.
  intros Hr Hu Hrt.
  pose proof (send_request_sent 0 _ _ _ _ _ _ _ _ _ Hr Hu Hrt) as Hs. cbv zeta in Hs.
  destruct answer as [e | resp].
  - now rewrite (apicall_Err _ _ _ _ _ _ _ _ _ Hs).
  - rewrite (apicall_Val _ _ _ _ _ _ _ _ _ Hs).
    destruct (snd (resp_Body resp)); [reflexivity |]. cbv zeta.
    now destruct (slice (strconv_Itoa (resp_StatusCode resp)) 0 1 =? "2")%string.
Qed.

Lemma sync_returns httpAction apiURL pce body st u :
  action_refused (strings_ToUpper httpAction) = false ->
  url_Parse apiURL = inr u ->
  exists api err st', apicall 0 httpAction apiURL pce body false st = (Returns api err, st').
Proof.
  intros Hr Hu.
  destruct (http_RoundTrip (apicall_client pce) (first_request httpAction apiURL pce body false)
              (world st)) as [answer w] eqn:Hrt.
  rewrite (sync_answer _ _ _ _ _ _ _ _ Hr Hu Hrt).
  destruct answer as [e | resp]; [eauto |].
  destruct (snd (resp_Body resp)); eauto.
Qed.

(** the answer with the body read, by the leading digit of the status *)
Lemma sync_status httpAction apiURL pce body st u resp w data :
  action_refused (strings_ToUpper httpAction) = false ->
  url_Parse apiURL = inr u ->
  http_RoundTrip (apicall_client pce) (first_request httpAction apiURL pce body false) (world st)
  = (inr resp, w) ->
  resp_Body resp = (data, None) ->
  let st1 := after_Do st (apicall_client pce) (first_request httpAction apiURL pce body false)
               (inr resp) w in
  (leading_digit (resp_StatusCode resp) 2 ->
   apicall 0 httpAction apiURL pce body false st = (Returns (filled resp data) None, st1))
  /\ (~ leading_digit (resp_StatusCode resp) 2 ->
      apicall 0 httpAction apiURL pce body false st
      = (Returns (filled resp data) (Some (status_error (resp_StatusCode resp))), st1)).
Proof.
  intros Hr Hu Hrt Hb st1. rewrite (sync_answer _ _ _ _ _ _ _ _ Hr Hu Hrt), Hb. simpl.
  fold st1.
  destruct (slice (strconv_Itoa (resp_StatusCode resp)) 0 1 =? "2")%string eqn:E.
  - apply Itoa_leading_2 in E. split; [reflexivity | intros Hn; now destruct Hn].
  - split; [| reflexivity]. intros Hl. apply Itoa_leading_2 in Hl. congruence.
Qed.

(** X12. The callers check the error of [url.Parse] before they hand the
    URL to [apicall], and they call it synchronously with a valid action:
    provided the printed form of a parsed URL parses again, none of the
    four panics on the unchecked parse inside [apicall], and none is left
    waiting; each returns to its caller. *)
Theorem callers_always_return pce query pairingProfile st :
  (forall raw u, url_Parse raw = inr u -> exists u', url_Parse (URL_String raw) = inr u') ->
  answered (fst (GetTrafficAnalysis pce query st))
  /\ answered (fst (GetAllPairingProfiles pce st))
  /\ answered (fst (CreatePairingProfile pce pairingProfile st))
  /\ answered (fst (CreatePairingKey pce pairingProfile st)).
Proof.
  intros Hlaw. repeat split.
  - unfold GetTrafficAnalysis.
    destruct (json_Marshal_request (build_request query)) as [e | payload]; [exact I |].
    destruct (url_Parse (org_url pce "/traffic_flows/traffic_analysis_queries"))
      as [e | u0] eqn:Hu0; [exact I |].
    destruct (Hlaw _ _ Hu0) as [u Hu].
    destruct (sync_returns "POST" _ pce payload st u POST_accepted Hu) as (api & err & st' & ->).
    now destruct err.
  - unfold GetAllPairingProfiles.
    destruct (url_Parse (org_url pce "/pairing_profiles")) as [e | u0] eqn:Hu0; [exact I |].
    destruct (Hlaw _ _ Hu0) as [u Hu].
    destruct (sync_returns "GET" _ pce "" st u GET_accepted Hu) as (api & err & st' & ->).
    now destruct err.
  - unfold CreatePairingProfile.
    destruct (url_Parse (org_url pce "/pairing_profiles")) as [e | u0] eqn:Hu0; [exact I |].
    destruct (json_Marshal_profile pairingProfile) as [e | payload]; [exact I |].
    destruct (Hlaw _ _ Hu0) as [u Hu].
    destruct (sync_returns "POST" _ pce payload st u POST_accepted Hu) as (api & err & st' & ->).
    exact I.
  - unfold CreatePairingKey.
    destruct (url_Parse (pairing_key_url pce pairingProfile)) as [e | u0] eqn:Hu0; [exact I |].
    destruct (Hlaw _ _ Hu0) as [u Hu].
    destruct (sync_returns "POST" _ pce "{}" st u POST_accepted Hu) as (api & err & st' & ->).
    exact I.
Qed.

(** X13. Each caller makes at most one exchange with the server and never
    sleeps: a POST of the marshaled query to the traffic analysis
    resource, a GET of the pairing profiles with an empty body, a POST of
    the marshaled profile to the pairing profiles, a POST of [{}] to the
    pairing key of the profile. A payload that does not marshal is not
    sent: the state is the one before the call. *)
Theorem callers_one_exchange pce query pairingProfile st :
  match json_Marshal_request (build_request query) with
  | inl _ => snd (GetTrafficAnalysis pce query st) = st
  | inr payload =>
      sends_at_most st (snd (GetTrafficAnalysis pce query st)) (apicall_client pce)
        (first_request "POST"
           (URL_String (org_url pce "/traffic_flows/traffic_analysis_queries"))
           pce payload false)
  end
  /\ sends_at_most st (snd (GetAllPairingProfiles pce st)) (apicall_client pce)
       (first_request "GET" (URL_String (org_url pce "/pairing_profiles")) pce "" false)
  /\ match json_Marshal_profile pairingProfile with
     | inl _ => snd (CreatePairingProfile pce pairingProfile st) = st
     | inr payload =>
         sends_at_most st (snd (CreatePairingProfile pce pairingProfile st)) (apicall_client pce)
           (first_request "POST" (URL_String (org_url pce "/pairing_profiles"))
              pce payload false)
     end
  /\ sends_at_most st (snd (CreatePairingKey pce pairingProfile st)) (apicall_client pce)
       (first_request "POST" (URL_String (pairing_key_url pce pairingProfile)) pce "{}" false).
Proof.
  repeat split.
  - unfold GetTrafficAnalysis.
    destruct (json_Marshal_request (build_request query)) as [e | payload]; [reflexivity |].
    destruct (url_Parse (org_url pce "/traffic_flows/traffic_analysis_queries"));
      [now left |].
    pose proof (apicall_sync_trace 0 "POST"
                  (URL_String (org_url pce "/traffic_flows/traffic_analysis_queries"))
                  pce payload st) as Ht.
    destruct (apicall 0 "POST" _ pce payload false st) as [[api [e |] | |] st']; exact Ht.
  - unfold GetAllPairingProfiles.
    destruct (url_Parse (org_url pce "/pairing_profiles")); [now left |].
    pose proof (apicall_sync_trace 0 "GET" (URL_String (org_url pce "/pairing_profiles"))
                  pce "" st) as Ht.
    destruct (apicall 0 "GET" _ pce "" false st) as [[api [e |] | |] st']; exact Ht.
  - unfold CreatePairingProfile.
    destruct (json_Marshal_profile pairingProfile) as [e | payload].
    + now destruct (url_Parse (org_url pce "/pairing_profiles")).
    + destruct (url_Parse (org_url pce "/pairing_profiles")); [now left |].
      pose proof (apicall_sync_trace 0 "POST" (URL_String (org_url pce "/pairing_profiles"))
                    pce payload st) as Ht.
      destruct (apicall 0 "POST" _ pce payload false st) as [[api err | |] st']; exact Ht.
  - unfold CreatePairingKey.
    destruct (url_Parse (pairing_key_url pce pairingProfile)); [now left |].
    pose proof (apicall_sync_trace 0 "POST" (URL_String (pairing_key_url pce pairingProfile))
                  pce "{}" st) as Ht.
    destruct (apicall 0 "POST" _ pce "{}" false st) as [[api err | |] st']; exact Ht.
Qed.

(** X14. [GetAllPairingProfiles], once the server has answered and the
    body is read. With a status whose first digit is 2 the profiles are
    what [json.Unmarshal] leaves in the nil slice and the error is nil,
    also when the body does not decode: the decoding error is dropped.
    With any other status the slice is nil and the error names the
    status. Both times the response is filled from the answer. *)
Theorem GetAllPairingProfiles_result pce st u0 u resp w data :
  let apiURL := URL_String (org_url pce "/pairing_profiles") in
  url_Parse (org_url pce "/pairing_profiles") = inr u0 ->
  url_Parse apiURL = inr u ->
  http_RoundTrip (apicall_client pce) (first_request "GET" apiURL pce "" false) (world st)
  = (inr resp, w) ->
  resp_Body resp = (data, None) ->
  let st1 := after_Do st (apicall_client pce) (first_request "GET" apiURL pce "" false)
               (inr resp) w in
  (leading_digit (resp_StatusCode resp) 2 ->
   GetAllPairingProfiles pce st
   = (Gives (fst (json_Unmarshal_profiles data None)) (filled resp data) None, st1))
  /\ (~ leading_digit (resp_StatusCode resp) 2 ->
      GetAllPairingProfiles pce st
      = (Gives None (filled resp data) (Some (status_error (resp_StatusCode resp))), st1)).
Proof.
  intros apiURL Hu0 Hu Hrt Hb st1.
  destruct (sync_status "GET" apiURL pce "" st u resp w data GET_accepted Hu Hrt Hb)
    as [Hok Hnot].
  unfold GetAllPairingProfiles. rewrite Hu0. fold apiURL.
  split; intros Hd; [rewrite (Hok Hd) | rewrite (Hnot Hd)]; reflexivity.
Qed.

(** X15. [GetTrafficAnalysis], once the query is marshaled, the server has
    answered and the body is read. With a status whose first digit is 2
    the flows are what [json.Unmarshal] leaves in the nil slice and the
    error is nil, the decoding error dropped. With any other status the
    flows are nil and the error is the status error of [apicall] behind
    the prefix of the function. *)
Theorem GetTrafficAnalysis_result pce query st payload u0 u resp w data :
  let apiURL := URL_String (org_url pce "/traffic_flows/traffic_analysis_queries") in
  json_Marshal_request (build_request query) = inr payload ->
  url_Parse (org_url pce "/traffic_flows/traffic_analysis_queries") = inr u0 ->
  url_Parse apiURL = inr u ->
  http_RoundTrip (apicall_client pce) (first_request "POST" apiURL pce payload false) (world st)
  = (inr resp, w) ->
  resp_Body resp = (data, None) ->
  let st1 := after_Do st (apicall_client pce) (first_request "POST" apiURL pce payload false)
               (inr resp) w in
  (leading_digit (resp_StatusCode resp) 2 ->
   GetTrafficAnalysis pce query st
   = (Gives (fst (json_Unmarshal_flows data None)) (filled resp data) None, st1))
  /\ (~ leading_digit (resp_StatusCode resp) 2 ->
      GetTrafficAnalysis pce query st
      = (Gives None (filled resp data)
           (Some (errorString ("get traffic analysis - http status code of "
                               ++ strconv_Itoa (resp_StatusCode resp)))),
         st1)).
Proof.
  intros apiURL Hm Hu0 Hu Hrt Hb st1.
  destruct (sync_status "POST" apiURL pce payload st u resp w data POST_accepted Hu Hrt Hb)
    as [Hok Hnot].
  unfold GetTrafficAnalysis. rewrite Hm, Hu0. fold apiURL.
  split; intros Hd; [rewrite (Hok Hd) | rewrite (Hnot Hd)]; reflexivity.
Qed.

(** X16. Whatever goes wrong in [GetTrafficAnalysis] (marshaling, the URL,
    the transport, reading the body, the status), the error returned is a
    new one whose text starts with [get traffic analysis - ], and the
    flows returned with it are nil. *)
Theorem GetTrafficAnalysis_errors_prefixed pce query st :
  match fst (GetTrafficAnalysis pce query st) with
  | Gives flows _ (Some err) =>
      flows = None /\ exists text, err = errorString ("get traffic analysis - " ++ text)
  | _ => True
  end.
Proof.
  unfold GetTrafficAnalysis.
  destruct (json_Marshal_request (build_request query)) as [e | payload];
    [simpl; unfold fmt_Errorf; eauto |].
  destruct (url_Parse (org_url pce "/traffic_flows/traffic_analysis_queries"));
    [simpl; unfold fmt_Errorf; eauto |].
  destruct (apicall 0 "POST" _ pce payload false st) as [[api [e |] | |] st']; simpl;
    unfold fmt_Errorf; eauto.
Qed.

(** X17. [CreatePairingProfile], once the profile is marshaled, the server
    has answered and the body is read: the response is filled from the
    answer; the error is nil with a status whose first digit is 2 and the
    status error of [apicall] otherwise. *)
Theorem CreatePairingProfile_result pce pairingProfile st payload u0 u resp w data :
  let apiURL := URL_String (org_url pce "/pairing_profiles") in
  url_Parse (org_url pce "/pairing_profiles") = inr u0 ->
  json_Marshal_profile pairingProfile = inr payload ->
  url_Parse apiURL = inr u ->
  http_RoundTrip (apicall_client pce) (first_request "POST" apiURL pce payload false) (world st)
  = (inr resp, w) ->
  resp_Body resp = (data, None) ->
  let st1 := after_Do st (apicall_client pce) (first_request "POST" apiURL pce payload false)
               (inr resp) w in
  (leading_digit (resp_StatusCode resp) 2 ->
   CreatePairingProfile pce pairingProfile st = (Gives tt (filled resp data) None, st1))
  /\ (~ leading_digit (resp_StatusCode resp) 2 ->
      CreatePairingProfile pce pairingProfile st
      = (Gives tt (filled resp data) (Some (status_error (resp_StatusCode resp))), st1)).
Proof.
  intros apiURL Hu0 Hm Hu Hrt Hb st1.
  destruct (sync_status "POST" apiURL pce payload st u resp w data POST_accepted Hu Hrt Hb)
    as [Hok Hnot].
  unfold CreatePairingProfile. rewrite Hu0, Hm. fold apiURL.
  split; intros Hd; [rewrite (Hok Hd) | rewrite (Hnot Hd)]; reflexivity.
Qed.

(** X18. [CreatePairingKey] posts [{}] to the pairing key of the profile,
    whose URL is made of the href of the profile, not of the organisation
    of the PCE; with the body of the answer read, the response is filled
    from it and the error is nil exactly when the first digit of the
    status is 2. *)
Theorem CreatePairingKey_result pce pairingProfile st u0 u resp w data :
  let apiURL :=
    URL_String ("https://" ++ pceSanitization (FQDN pce) ++ ":" ++ strconv_Itoa (Port pce)
                ++ "/api/v1" ++ PairingProfile.Href pairingProfile ++ "/pairing_key") in
  url_Parse (pairing_key_url pce pairingProfile) = inr u0 ->
  url_Parse apiURL = inr u ->
  http_RoundTrip (apicall_client pce) (first_request "POST" apiURL pce "{}" false) (world st)
  = (inr resp, w) ->
  resp_Body resp = (data, None) ->
  let st1 := after_Do st (apicall_client pce) (first_request "POST" apiURL pce "{}" false)
               (inr resp) w in
  (leading_digit (resp_StatusCode resp) 2 ->
   CreatePairingKey pce pairingProfile st = (Gives tt (filled resp data) None, st1))
  /\ (~ leading_digit (resp_StatusCode resp) 2 ->
      CreatePairingKey pce pairingProfile st
      = (Gives tt (filled resp data) (Some (status_error (resp_StatusCode resp))), st1)).
Proof.
  intros apiURL Hu0 Hu Hrt Hb st1.
  destruct (sync_status "POST" apiURL pce "{}" st u resp w data POST_accepted Hu Hrt Hb)
    as [Hok Hnot].
  unfold CreatePairingKey. rewrite Hu0.
  change (URL_String (pairing_key_url pce pairingProfile)) with apiURL.
  split; intros Hd; [rewrite (Hok Hd) | rewrite (Hnot Hd)]; reflexivity.
Qed.

(** ** What the transport reads of the PCE *)

Lemma polling_same_credentials baseURL pce pce' origResp :
  same_credentials pce pce' ->
  polling baseURL pce origResp = polling baseURL pce' origResp.
Proof. intros (Hu & Hk & _). unfold polling. now rewrite Hu, Hk. Qed.

Lemma poll_loop_same_credentials baseURL pce pce' origResp :
  same_credentials pce pce' ->
  forall fuel results st,
    poll_loop fuel baseURL pce origResp results st
    = poll_loop fuel baseURL pce' origResp results st.
Proof.
  intros Hc. induction fuel as [|fuel IH]; intros results st; simpl; [reflexivity |].
  destruct (Status results =? "done")%string; [reflexivity |].
  unfold bind. rewrite (polling_same_credentials _ _ _ _ Hc).
  destruct (polling baseURL pce' origResp st) as [[r | e | |] st1]; auto.
Qed.

Lemma send_request_same_credentials fuel httpAction apiURL pce pce' body async st :
  same_credentials pce pce' ->
  send_request fuel httpAction apiURL pce body async st
  = send_request fuel httpAction apiURL pce' body async st.
Proof.
  intros Hc. pose proof Hc as (Hu & Hk & Ht).
  assert (Hclient : apicall_client pce = apicall_client pce')
    by (unfold apicall_client; now rewrite Ht).
  assert (Hfirst : first_request httpAction apiURL pce body async
                   = first_request httpAction apiURL pce' body async)
    by (unfold first_request, authorised; now rewrite Hu, Hk).
  destruct (action_refused (strings_ToUpper httpAction)) eqn:Hr.
  { now rewrite !(send_request_refused _ _ _ _ _ _ _ Hr). }
  destruct (url_Parse apiURL) as [e | u] eqn:Hp.
  { now rewrite !(send_request_bad_url _ _ _ _ _ _ _ _ Hr Hp). }
  destruct (http_RoundTrip (apicall_client pce') (first_request httpAction apiURL pce' body async)
              (world st)) as [answer w] eqn:Hrt.
  rewrite (send_request_sent fuel _ _ pce' _ _ _ _ _ _ Hr Hp Hrt).
  rewrite <- Hclient, <- Hfirst in Hrt.
  rewrite (send_request_sent fuel _ _ pce _ _ _ _ _ _ Hr Hp Hrt).
  cbv zeta. rewrite Hclient, Hfirst.
  destruct answer as [e | resp]; [reflexivity |].
  destruct async; [| reflexivity].
  unfold bind. rewrite (poll_loop_same_credentials _ _ _ _ Hc).
  destruct (poll_loop fuel (base_url u) pce' resp zero_asyncResults _) as [[results | e | |] st2];
    try reflexivity.
  unfold fetch_result. now rewrite Hu, Hk.
Qed.

(** X19. Of the PCE, the transport reads the user, the key and the TLS
    setting and nothing else: the host, port and organisation reach the
    server only through the URL its caller built. Two PCEs that agree on
    the three give the same call. *)
Theorem apicall_reads_credentials_only fuel httpAction apiURL pce pce' body async st :
  same_credentials pce pce' ->
  apicall fuel httpAction apiURL pce body async st
  = apicall fuel httpAction apiURL pce' body async st.
Proof.
  intros Hc. unfold apicall, apicall_steps, bind.
  now rewrite (send_request_same_credentials _ _ _ _ _ _ _ _ Hc).
Qed.

(** ** The host of the PCE, however it is written *)

Lemma app_last_byte (c : ascii) (h : string) :
  h <> "" ->
  forall a v, a ++ h = v ++ String c "" -> exists v', h = v' ++ String c "".
Proof.
  intros Hh. induction a as [|x a IH]; intros v E.
  - rewrite app_nil in E. eauto.
  - rewrite app_cons in E. destruct v as [|y v].
    + rewrite app_nil in E. injection E as _ E. destruct a; [| discriminate].
      rewrite app_nil in E. contradiction.
    + rewrite app_cons in E. injection E as _ E. eauto.
Qed.

Lemma pceSanitization_forms (h s : string) :
  h <> "" ->
  strings_Contains h "https://" = false ->
  strings_HasSuffix h "/" = false ->
  In s (fqdn_forms h) ->
  pceSanitization s = h.
Proof.
  intros Hh Hc Hs Hin.
  pose proof (Contains_false_HasPrefix _ _ Hc) as Hp.
  assert (Hstrip : forall t, trim_slash t = "https://" ++ h -> pceSanitization t = h).
  { intros t Et. rewrite pceSanitization_unfold, Et.
    rewrite (proj2 (HasPrefix_spec _ _) (ex_intro _ h eq_refl)).
    now apply Replace_leading. }
  simpl in Hin. destruct Hin as [<- | [<- | [<- | [<- | []]]]].
  - now apply pceSanitization_fixed.
  - now rewrite pceSanitization_unfold, trim_slash_app, Hp.
  - apply Hstrip. unfold trim_slash.
    destruct (strings_HasSuffix ("https://" ++ h) "/") eqn:E; [| reflexivity].
    apply HasSuffix_spec in E as [v Ev].
    destruct (app_last_byte _ _ Hh _ _ Ev) as [v' ->].
    rewrite (proj2 (HasSuffix_spec _ _) (ex_intro _ v' eq_refl)) in Hs. discriminate.
  - apply Hstrip. rewrite <- app_assoc_s. apply trim_slash_app.
Qed.

(** the call goes through the transport with another PCE of the same
    credentials *)
Ltac same_transport Hc :=
  unfold apicall, apicall_steps, bind;
  rewrite (send_request_same_credentials _ _ _ _ _ _ _ _ Hc); reflexivity.

(** X20. The host of the PCE may be written bare, with a slash after it,
    with [https://] before it or with both: for a host that is not empty,
    does not end in a slash and does not hold [https://], the four ways
    of writing it give the same URLs, and each caller does the same with
    all of them. *)
Theorem host_forms_same_call pce h s query pairingProfile st :
  h <> "" ->
  strings_Contains h "https://" = false ->
  strings_HasSuffix h "/" = false ->
  In s (fqdn_forms h) ->
  GetTrafficAnalysis (with_FQDN pce s) query st = GetTrafficAnalysis (with_FQDN pce h) query st
  /\ GetAllPairingProfiles (with_FQDN pce s) st = GetAllPairingProfiles (with_FQDN pce h) st
  /\ CreatePairingProfile (with_FQDN pce s) pairingProfile st
     = CreatePairingProfile (with_FQDN pce h) pairingProfile st
  /\ CreatePairingKey (with_FQDN pce s) pairingProfile st
     = CreatePairingKey (with_FQDN pce h) pairingProfile st.
Proof.
  intros Hh Hc Hs Hin.
  assert (Es : pceSanitization s = pceSanitization h).
  { rewrite (pceSanitization_forms h s Hh Hc Hs Hin).
    symmetry. apply (pceSanitization_forms h h Hh Hc Hs). now left. }
  assert (Hsame : same_credentials (with_FQDN pce s) (with_FQDN pce h))
    by (repeat split; reflexivity).
  assert (Horg : forall resource,
             org_url (with_FQDN pce s) resource = org_url (with_FQDN pce h) resource).
  { intros resource. unfold org_url, with_FQDN. cbn [FQDN Port Org]. now rewrite Es. }
  assert (Hkey : pairing_key_url (with_FQDN pce s) pairingProfile
                 = pairing_key_url (with_FQDN pce h) pairingProfile).
  { unfold pairing_key_url, with_FQDN. cbn [FQDN Port Org]. now rewrite Es. }
  assert (Hcall : forall httpAction apiURL body,
             apicall 0 httpAction apiURL (with_FQDN pce s) body false st
             = apicall 0 httpAction apiURL (with_FQDN pce h) body false st).
  { intros. same_transport Hsame. }
  repeat split.
  - unfold GetTrafficAnalysis. rewrite Horg.
    destruct (json_Marshal_request (build_request query)); [reflexivity |].
    now rewrite Hcall.
  - unfold GetAllPairingProfiles. now rewrite Horg, Hcall.
  - unfold CreatePairingProfile. rewrite Horg.
    destruct (url_Parse _); [reflexivity |].
    destruct (json_Marshal_profile pairingProfile); [reflexivity |]. now rewrite Hcall.
  - unfold CreatePairingKey. now rewrite Hkey, Hcall.
Qed.

End Callers.

(** ** Runs of the callers and of the transport *)

Section PendingRuns.

Import Scripted.

#[local] Existing Instance Pending.runtime.

(** Three cycles allowed, three cycles made, no answer. *)
Lemma unfinished_job_polls_forever_witness :
  exists answers,
    fst (apicall 3 "POST" apiURL pce "{}" true Pending.start) = Unfinished
    /\ List.length answers = 3%nat
    /\ trace (snd (apicall 3 "POST" apiURL pce "{}" true Pending.start))
       = (trace Pending.start
          ++ Do (apicall_client pce) (first_request "POST" apiURL pce "{}" true) (inr accepted)
             :: flat_map (poll_cycle (base_url parsed) pce accepted (int64 (0 * time_Second)))
                  answers)%list.
Proof.
  apply (unfinished_job_polls_forever 3 "POST" apiURL pce "{}" Pending.start parsed accepted
           1%nat (ScriptedCallers.at_path "/api/v1/jobs/123") 0
           eq_refl eq_refl eq_refl eq_refl eq_refl).
  intros w0. exists (reply 200 ∅ body_pending), (S w0).
  split; [reflexivity |]. split; [reflexivity |]. vm_compute. discriminate.
Defined.

End PendingRuns.

Section CallerRuns.

Import Scripted ScriptedCallers.

#[local] Existing Instance Scripted.runtime.
#[local] Existing Instance ScriptedCallers.declarations.
#[local] Existing Instance ScriptedCallers.library.

(** A submission answered with status 500 is polled all the same. *)
Lemma submission_status_not_examined_witness :
  exists answer rest,
    trace (snd (apicall 1 "POST" apiURL pce "{}" true
                  (start [server_error; reply 200 ∅ body_done; reply 200 ∅ "ok"])))
    = (trace (start [server_error; reply 200 ∅ body_done; reply 200 ∅ "ok"])
       ++ Do (apicall_client pce) (first_request "POST" apiURL pce "{}" true) (inr server_error)
          :: poll_cycle (base_url parsed) pce server_error (int64 (0 * time_Second)) answer
          ++ rest)%list.
Proof.
  exact (submission_status_not_examined 0 "POST" apiURL pce "{}"
           (start [server_error; reply 200 ∅ body_done; reply 200 ∅ "ok"])
           parsed server_error (map inr [reply 200 ∅ body_done; reply 200 ∅ "ok"])
           (at_path "/api/v1/jobs/123") 0 eq_refl eq_refl eq_refl eq_refl eq_refl).
Defined.

(** The four callers against a server that refuses the connection. *)
Lemma callers_always_return_witness :
  answered (fst (GetTrafficAnalysis pce (endpoints_query None None None None 10) (start [])))
  /\ answered (fst (GetAllPairingProfiles pce (start [])))
  /\ answered (fst (CreatePairingProfile pce (profile "web" "/orgs/1/pairing_profiles/7")
                      (start [])))
  /\ answered (fst (CreatePairingKey pce (profile "web" "/orgs/1/pairing_profiles/7")
                      (start []))).
Proof.
  apply (@callers_always_return Scripted.runtime declarations library
           pce (endpoints_query None None None None 10)
           (profile "web" "/orgs/1/pairing_profiles/7") (start [])).
  intros raw u Hu. exists u. exact Hu.
Defined.

(** A body that is no list of profiles, with status 200: no profiles and
    no error. *)
Lemma GetAllPairingProfiles_result_witness :
  GetAllPairingProfiles pce (start [reply 200 ∅ "<html>"])
  = (Gives None (filled (reply 200 ∅ "<html>") "<html>") None,
     served 1 [reply 200 ∅ "<html>"]
       [Do (apicall_client pce)
          (first_request "GET" "https://pce.example.com:8443/api/v1/orgs/1/pairing_profiles"
             pce "" false)
          (inr (reply 200 ∅ "<html>"))]).
Proof.
  apply (proj1 (@GetAllPairingProfiles_result Scripted.runtime declarations library
                  pce (start [reply 200 ∅ "<html>"])
                  (at_path "/api/v1/orgs/1/pairing_profiles")
                  (at_path "/api/v1/orgs/1/pairing_profiles")
                  (reply 200 ∅ "<html>") [] "<html>" eq_refl eq_refl eq_refl eq_refl)).
  apply Itoa_leading_2. reflexivity.
Defined.

(** A query that the server does not accept. *)
Lemma GetTrafficAnalysis_result_witness :
  GetTrafficAnalysis pce (endpoints_query None None None None 10)
    (start [reply 406 ∅ "not acceptable"])
  = (Gives None (filled (reply 406 ∅ "not acceptable") "not acceptable")
       (Some (errorString "get traffic analysis - http status code of 406")),
     served 1 [reply 406 ∅ "not acceptable"]
       [Do (apicall_client pce)
          (first_request "POST"
             "https://pce.example.com:8443/api/v1/orgs/1/traffic_flows/traffic_analysis_queries"
             pce "{}" false)
          (inr (reply 406 ∅ "not acceptable"))]).
Proof.
  apply (proj2 (@GetTrafficAnalysis_result Scripted.runtime declarations library
                  pce (endpoints_query None None None None 10)
                  (start [reply 406 ∅ "not acceptable"]) "{}"
                  (at_path "/api/v1/orgs/1/traffic_flows/traffic_analysis_queries")
                  (at_path "/api/v1/orgs/1/traffic_flows/traffic_analysis_queries")
                  (reply 406 ∅ "not acceptable") [] "not acceptable"
                  eq_refl eq_refl eq_refl eq_refl eq_refl)).
  intros Hl. apply Itoa_leading_2 in Hl. discriminate Hl.
Defined.

(** A profile created. *)
Lemma CreatePairingProfile_result_witness :
  CreatePairingProfile pce (profile "web" "") (start [reply 201 ∅ "{}"])
  = (Gives tt (filled (reply 201 ∅ "{}") "{}") None,
     served 1 [reply 201 ∅ "{}"]
       [Do (apicall_client pce)
          (first_request "POST" "https://pce.example.com:8443/api/v1/orgs/1/pairing_profiles"
             pce ("{" ++ js "name" ++ ":" ++ js "web" ++ "}") false)
          (inr (reply 201 ∅ "{}"))]).
Proof.
  apply (proj1 (@CreatePairingProfile_result Scripted.runtime declarations library
                  pce (profile "web" "") (start [reply 201 ∅ "{}"])
                  ("{" ++ js "name" ++ ":" ++ js "web" ++ "}")
                  (at_path "/api/v1/orgs/1/pairing_profiles")
                  (at_path "/api/v1/orgs/1/pairing_profiles")
                  (reply 201 ∅ "{}") [] "{}" eq_refl eq_refl eq_refl eq_refl eq_refl)).
  apply Itoa_leading_2. reflexivity.
Defined.

(** A key for a profile of another organisation than the one of the PCE:
    the URL follows the href. *)
Lemma CreatePairingKey_result_witness :
  CreatePairingKey pce (profile "web" "/orgs/2/pairing_profiles/7") (start [reply 201 ∅ "{}"])
  = (Gives tt (filled (reply 201 ∅ "{}") "{}") None,
     served 1 [reply 201 ∅ "{}"]
       [Do (apicall_client pce)
          (first_request "POST"
             "https://pce.example.com:8443/api/v1/orgs/2/pairing_profiles/7/pairing_key"
             pce "{}" false)
          (inr (reply 201 ∅ "{}"))]).
Proof.
  apply (proj1 (@CreatePairingKey_result Scripted.runtime declarations library
                  pce (profile "web" "/orgs/2/pairing_profiles/7")
                  (start [reply 201 ∅ "{}"])
                  (at_path "/api/v1/orgs/2/pairing_profiles/7/pairing_key")
                  (at_path "/api/v1/orgs/2/pairing_profiles/7/pairing_key")
                  (reply 201 ∅ "{}") [] "{}" eq_refl eq_refl eq_refl eq_refl)).
  apply Itoa_leading_2. reflexivity.
Defined.

(** The asynchronous run of two polls, with another host, port and
    organisation in the PCE. *)
Lemma apicall_reads_credentials_only_witness :
  apicall 2 "GET" apiURL pce "" true (start two_polls)
  = apicall 2 "GET" apiURL
      {| FQDN := "other.example.com"; Port := 443; Org := 7; User := "api_1";
         Key := "secret"; DisableTLSChecking := false |}
      "" true (start two_polls).
Proof.
  apply (apicall_reads_credentials_only 2 "GET" apiURL pce
           {| FQDN := "other.example.com"; Port := 443; Org := 7; User := "api_1";
              Key := "secret"; DisableTLSChecking := false |}
           "" true (start two_polls)).
  repeat split; reflexivity.
Defined.

(** The host with scheme and slash. *)
Lemma host_forms_same_call_witness :
  GetTrafficAnalysis (with_FQDN pce "https://pce.example.com/")
    (endpoints_query None None None None 10) (start [reply 200 ∅ "[]"])
  = GetTrafficAnalysis (with_FQDN pce "pce.example.com")
      (endpoints_query None None None None 10) (start [reply 200 ∅ "[]"])
  /\ GetAllPairingProfiles (with_FQDN pce "https://pce.example.com/") (start [reply 200 ∅ "[]"])
     = GetAllPairingProfiles (with_FQDN pce "pce.example.com") (start [reply 200 ∅ "[]"])
  /\ CreatePairingProfile (with_FQDN pce "https://pce.example.com/") (profile "web" "")
       (start [reply 200 ∅ "[]"])
     = CreatePairingProfile (with_FQDN pce "pce.example.com") (profile "web" "")
         (start [reply 200 ∅ "[]"])
  /\ CreatePairingKey (with_FQDN pce "https://pce.example.com/") (profile "web" "")
       (start [reply 200 ∅ "[]"])
     = CreatePairingKey (with_FQDN pce "pce.example.com") (profile "web" "")
         (start [reply 200 ∅ "[]"]).
Proof.
  apply (@host_forms_same_call Scripted.runtime declarations library
           pce "pce.example.com" "https://pce.example.com/"
           (endpoints_query None None None None 10) (profile "web" "")
           (start [reply 200 ∅ "[]"])).
  - discriminate.
  - reflexivity.
  - reflexivity.
  - simpl. auto.
Defined.

End CallerRuns.
